(** * OpenAI handler helpers: token accounting, truncation and retry

    A shallow embedding of
    [mindsdb/integrations/handlers/openai_handler/helpers.py]:
    [count_tokens], [truncate_msgs_for_token_limit] and the wrapper built
    by [retry_with_exponential_backoff].

    Conventions.
    - A Python [dict] with string keys is a [gmap string _]; a Python list
      is a [list]; a Python [int] is a [Z].
    - A call that may raise returns a [result]: [Ok v] or [Err e].
    - A [while] loop takes a fuel argument (the number of times its
      condition may be tested); [None] means the fuel ran out.
    - The delays of the retry loop are idealised as real numbers.  The
      float arithmetic that computes the retry budget is a parameter
      (class [FloatOps]): its roundings, overflows and logarithms are
      what the platform gives. *)

From Stdlib Require Import ZArith Lia List Reals Lra.
From stdpp Require Import base strings list gmap pretty.

Local Open Scope Z_scope.

(** ** Python results *)

Inductive result (E A : Type) : Type :=
| Ok (v : A)
| Err (e : E).
Arguments Ok {E A} v.
Arguments Err {E A} e.

#[global] Instance result_ret {E} : MRet (result E) := fun _ v => Ok v.
#[global] Instance result_bind {E} : MBind (result E) :=
  fun _ _ k r => match r with
                 | Ok v => k v
                 | Err e => Err e
                 end.

(** ** Token counting and truncation *)

Module Tokens.

(** A chat message: a dict from field names to string values. *)
Abbreviation message := (gmap string string).

(** What the tokenizer side can raise. *)
Inductive error : Type :=
| NotImplementedError (msg : string)
| KeyError (model_name : string).

(** An [encoder] stands for a tiktoken encoding: [encoder.encode(value)]
    is the list of tokens of [value]. *)
Definition encoder : Type := string -> list nat.

(** Python's [needle in hay] on strings. *)
Fixpoint contains (needle hay : string) : bool :=
  if String.prefix needle hay then true
  else match hay with
       | EmptyString => false
       | String _ rest => contains needle rest
       end.

Definition chat_marker : string := "gpt-3.5-turbo".

(** The inner [for key, value in message.items()] loop of [count_tokens],
    started from the running total [num_tokens].  [map_fold] visits every
    item of the dict once; the loop only adds to the total, so the order
    of the visits does not show in the result. *)
Definition count_fields (encode : encoder) (message : message) (num_tokens : Z) : Z :=
  map_fold
    (fun (key value : string) (num_tokens : Z) =>
       let num_tokens := num_tokens + Z.of_nat (length (encode value)) in
       if decide (key = "name") then num_tokens + -1 else num_tokens)
    num_tokens message.

(** One round of the outer [for message in messages] loop. *)
Definition count_message (encode : encoder) (num_tokens : Z) (message : message) : Z :=
  count_fields encode message (num_tokens + 4).

Definition count_tokens (messages : list message) (encode : encoder)
    (model_name : string) : result error Z :=
  if contains chat_marker model_name then
    let num_tokens := 0 in
    let num_tokens := foldl (count_message encode) num_tokens messages in
    let num_tokens := num_tokens + 2 in
    Ok num_tokens
  else
    Err (NotImplementedError
           ("_count_tokens() is not presently implemented for model "
              +:+ model_name +:+ ".")).

(** ** The counting formula, in the words of the specification *)

(** Encoded length of every field value of a message, added up. *)
Definition field_tokens (encode : encoder) (m : message) : Z :=
  foldr Z.add 0 ((fun kv => Z.of_nat (length (encode kv.2))) <$> map_to_list m).

(** One token is taken off when the message has a [name] field. *)
Definition name_discount (m : message) : Z :=
  if decide (is_Some (m !! "name")) then 1 else 0.

Definition message_cost (encode : encoder) (m : message) : Z :=
  4 + field_tokens encode m - name_discount m.

Definition token_formula (encode : encoder) (messages : list message) : Z :=
  foldr Z.add 0 (message_cost encode <$> messages) + 2.

(** ** The truncator *)

(** The Python slices it takes. *)
Definition slice_from {A} (i : nat) (l : list A) : list A := drop i l.
(** [l[:-1]] *)
Definition slice_but_last {A} (l : list A) : list A := take (length l - 1) l.
(** [l[1:-1]] *)
Definition slice_inner {A} (l : list A) : list A := drop 1 (take (length l - 1) l).

(** One pass through the body of the [while] loop, up to the point where
    the token count is recomputed. *)
Inductive step : Type :=
| Return (messages : list message)
| Continue (messages : list message).

Definition loop_body (sys_priming messages : list message) (truncate : string) : step :=
  if (length messages =? 2)%nat then Return (slice_but_last messages)
  else if (length messages =? 1)%nat then Return messages
  else if decide (truncate = "first")
       then Continue (sys_priming ++ slice_from 2 messages)
       else Continue (sys_priming ++ slice_inner messages).

Section Truncator.

(** [tiktoken.encoding_for_model]: [None] when the model is unknown to
    the tokenizer library (a [KeyError] in Python). *)
Variable encoding_for_model : string -> option encoder.

Fixpoint while_loop (fuel : nat) (encode : encoder) (sys_priming : list message)
    (model_name : string) (max_tokens : Z) (truncate : string)
    (messages : list message) (n_tokens : Z)
    : option (result error (list message)) :=
  match fuel with
  | O => None
  | S fuel =>
    if n_tokens >? max_tokens then
      match loop_body sys_priming messages truncate with
      | Return out => Some (Ok out)
      | Continue messages =>
        match count_tokens messages encode model_name with
        | Err e => Some (Err e)
        | Ok n_tokens =>
          while_loop fuel encode sys_priming model_name max_tokens truncate
                     messages n_tokens
        end
      end
    else Some (Ok messages)
  end.

Definition truncate_msgs_for_token_limit (fuel : nat) (messages : list message)
    (model_name : string) (max_tokens : Z) (truncate : string)
    : option (result error (list message)) :=
  match encoding_for_model model_name with
  | None => Some (Err (KeyError model_name))
  | Some encode =>
    let sys_priming := take 1 messages in
    match count_tokens messages encode model_name with
    | Err e => Some (Err e)
    | Ok n_tokens =>
      while_loop fuel encode sys_priming model_name max_tokens truncate
                 messages n_tokens
    end
  end.

(** A model is supported when the tokenizer knows it and its name carries
    the chat-family marker. *)
Definition supported (model_name : string) (encode : encoder) : Prop :=
  encoding_for_model model_name = Some encode /\
  contains chat_marker model_name = true.

End Truncator.

(** The sequences the loop of the truncator holds, round by round, on
    the input [m0 :: rest]. *)

(** With [truncate == 'first'] round [j] holds the priming message and
    the input without its [j] oldest other messages. *)
Definition drop_oldest (m0 : message) (rest : list message) (j : nat) : list message :=
  m0 :: drop j rest.

(** Otherwise it holds the input without its [j] newest messages. *)
Definition drop_newest (messages : list message) (j : nat) : list message :=
  take (length messages - j) messages.

(** The sequence held after [j] rounds, for either value of the flag. *)
Definition rounds (truncate : string) (m0 : message) (rest : list message)
    (j : nat) : list message :=
  if decide (truncate = "first") then drop_oldest m0 rest j
  else drop_newest (m0 :: rest) j.

(** A sequence is over the budget, or within it, when [count_tokens]
    returns a count that is, or is not, greater than [max_tokens]. *)
Definition exceeds (encode : encoder) (model_name : string) (max_tokens : Z)
    (messages : list message) : Prop :=
  exists n, count_tokens messages encode model_name = Ok n /\ n > max_tokens.

Definition fits (encode : encoder) (model_name : string) (max_tokens : Z)
    (messages : list message) : Prop :=
  exists n, count_tokens messages encode model_name = Ok n /\ n <= max_tokens.

(** A stub encoder: one token per character. *)
Definition char_encoder : encoder :=
  fun s => map Ascii.nat_of_ascii (String.list_ascii_of_string s).

Definition stub_encoding_for_model : string -> option encoder :=
  fun _ => Some char_encoder.

Definition msg_system_a : message :=
  <["role" := "system"]> (<["content" := "a"]> ∅).

Definition msg_user (content : string) : message :=
  <["role" := "user"]> (<["content" := content]> ∅).

End Tokens.

(** ** Retry with exponential backoff *)

Module Backoff.

(** The exception classes the handlers tell apart: the part of openai's
    hierarchy named by the default tuples, [PendingFT] (declared in
    helpers.py as a subclass of [openai.OpenAIError]), and everything
    else. *)
Inductive exn_class : Type :=
| OpenAIError
| APIError
| APIConnectionError
| APITimeoutError
| APIStatusError
| APIResponseValidationError
| PendingFT
| OtherException.

#[global] Instance exn_class_eq_dec : EqDecision exn_class.
Proof. solve_decision. Defined.

(** The class itself followed by its base classes, nearest first. *)
Definition mro (c : exn_class) : list exn_class :=
  match c with
  | OpenAIError => [OpenAIError]
  | APIError => [APIError; OpenAIError]
  | APIConnectionError => [APIConnectionError; APIError; OpenAIError]
  | APITimeoutError => [APITimeoutError; APIConnectionError; APIError; OpenAIError]
  | APIStatusError => [APIStatusError; APIError; OpenAIError]
  | APIResponseValidationError => [APIResponseValidationError; APIError; OpenAIError]
  | PendingFT => [PendingFT; OpenAIError]
  | OtherException => [OtherException]
  end.

(** The [body] of an error of the openai library: the decoded JSON
    object of the response, the raw text when the response is no JSON,
    or [None] when there was no response. *)
Inductive pybody : Type :=
| BodyNone
| BodyText (text : string)
| BodyDict (fields : gmap string string).

(** An exception raised by the wrapped call, with the attributes the
    handlers read: [str(e)], [e.status_code] and [e.body]. *)
Record exception : Type := {
  exn_class_of : exn_class;
  exn_str : string;
  status_code : Z;
  body : pybody
}.

(** [isinstance(e, classes)] for a tuple of classes. *)
Definition isinstance (e : exception) (classes : list exn_class) : bool :=
  existsb (fun c => bool_decide (c ∈ mro (exn_class_of e))) classes.

(** What comes out of the wrapper when it does not return. *)
Inductive failure : Type :=
| Exception (msg : string)
| Reraised (e : exception)
| ValueError
| ZeroDivisionError
| OverflowError
| AttributeError (msg : string).

(** A Python float: a finite value, an infinity or a NaN.  A real number
    stands for the finite float of that value. *)
Inductive pyfloat : Type :=
| Finite (x : R)
| Infinity (negative : bool)
| NaN.

Bind Scope R_scope with pyfloat.
Coercion Finite : R >-> pyfloat.

(** A Python object passed as [hour_budget]. *)
Inductive pyobj : Type :=
| PyFloat (x : pyfloat)
| PyInt (n : Z)
| PyOther.

(** The arguments of [retry_with_exponential_backoff]. *)
Record policy : Type := {
  initial_delay : R;
  hour_budget : pyobj;
  jitter : bool;
  exponential_base : Z;
  wait_errors : list exn_class;
  status_errors : list exn_class
}.

Definition default_policy : policy := {|
  initial_delay := 1;
  hour_budget := PyFloat 0.3;
  jitter := false;
  exponential_base := 2;
  wait_errors := [APITimeoutError; APIConnectionError; PendingFT];
  status_errors := [APIStatusError; APIResponseValidationError]
|}.

(** [round(x)] on a finite float: to the nearest integer, ties to the
    even one. *)
Definition py_round (x : R) : Z :=
  let f := Int_part x in
  let d := (x - IZR f)%R in
  if Rlt_dec d (1 / 2) then f
  else if Rlt_dec (1 / 2) d then f + 1
  else if Z.even f then f else f + 1.

(** The float arithmetic of the platform, as far as the computation of
    [max_retries] uses it.  Products and quotients are rounded and may
    overflow, [math.log] comes from the C library: the results are taken
    as the platform gives them. *)
Class FloatOps : Type := {
  float_mul : pyfloat -> pyfloat -> pyfloat;  (* x * y *)
  float_div : pyfloat -> pyfloat -> pyfloat;  (* x / y, y not zero *)
  float_log : pyfloat -> pyfloat;             (* math.log(x), x a float > 0 *)
  int_log : Z -> pyfloat;                     (* math.log(n), n an int > 0 *)
  float_of_int : Z -> option pyfloat          (* float(n); None: too large *)
}.

(** An [int] or a [float]. *)
Inductive number : Type :=
| IntVal (n : Z)
| FloatVal (x : pyfloat).

(** [isinstance(x, float) or isinstance(x, int)], with the value. *)
Definition as_numeric (x : pyobj) : option number :=
  match x with
  | PyFloat x => Some (FloatVal x)
  | PyInt n => Some (IntVal n)
  | PyOther => None
  end.

(** The real value of a finite number. *)
Definition as_number (x : pyobj) : option R :=
  match x with
  | PyFloat (Finite x) => Some x
  | PyFloat _ => None
  | PyInt n => Some (IZR n)
  | PyOther => None
  end.

Definition is_zero (x : pyfloat) : bool :=
  match x with
  | Finite x => if Req_dec_T x 0 then true else false
  | _ => false
  end.

(** [round(x)] on a float *)
Definition round_float (x : pyfloat) : result failure Z :=
  match x with
  | Finite x => Ok (py_round x)
  | Infinity _ => Err OverflowError
  | NaN => Err ValueError
  end.

Section Budget.

Context {fp : FloatOps}.

(** [x * 3600] *)
Definition times_3600 (x : number) : number :=
  match x with
  | IntVal n => IntVal (n * 3600)
  | FloatVal x => FloatVal (float_mul x (Finite 3600))
  end.

(** The conversion of the left operand of [/] to a float. *)
Definition to_float (x : number) : result failure pyfloat :=
  match x with
  | FloatVal x => Ok x
  | IntVal n =>
    match float_of_int n with
    | Some x => Ok x
    | None => Err OverflowError
    end
  end.

(** [a / b] with [b] a float *)
Definition true_div (a : number) (b : pyfloat) : result failure pyfloat :=
  a ← to_float a;
  if is_zero b then Err ZeroDivisionError else Ok (float_div a b).

(** [math.log] *)
Definition math_log (x : number) : result failure pyfloat :=
  match x with
  | IntVal n => if (0 <? n)%Z then Ok (int_log n) else Err ValueError
  | FloatVal (Finite x) =>
    if Rlt_dec 0 x then Ok (float_log (Finite x)) else Err ValueError
  | FloatVal (Infinity false) => Ok (Infinity false)
  | FloatVal (Infinity true) => Err ValueError
  | FloatVal NaN => Ok NaN
  end.

(** [(hour_budget * 3600) / initial_delay], the initial delay being a
    float *)
Definition budget_ratio (pol : policy) (hour_budget : number)
    : result failure pyfloat :=
  true_div (times_3600 hour_budget) (Finite (initial_delay pol)).

(** The argument of [round]. *)
Definition budget_quotient (pol : policy) (hour_budget : number)
    : result failure pyfloat :=
  ratio ← budget_ratio pol hour_budget;
  num ← math_log (FloatVal ratio);
  den ← math_log (IntVal (exponential_base pol));
  true_div (FloatVal num) den.

(** The expression inside the [try]. *)
Definition budget_retries (pol : policy) (hour_budget : number)
    : result failure Z :=
  q ← budget_quotient pol hour_budget;
  round_float q.

(** The [try ... except ValueError] around it. *)
Definition guarded_retries (pol : policy) (hour_budget : number)
    : result failure Z :=
  match budget_retries pol hour_budget with
  | Err ValueError => Ok 10
  | r => r
  end.

Definition compute_max_retries (pol : policy) : result failure Z :=
  max_retries ←
    match as_numeric (hour_budget pol) with
    | Some hour_budget => guarded_retries pol hour_budget
    | None => Ok 10
    end;
  mret (Z.max 1 max_retries).

End Budget.

(** The formula over the real numbers, as the specification writes it. *)
Definition exact_quotient (pol : policy) (hour_budget : R) : R :=
  (ln (hour_budget * 3600 / initial_delay pol)
   / ln (IZR (exponential_base pol)))%R.

(** The [except] clauses in the order Python tries them. *)
Inductive handler : Type :=
| Rejected    (* except status_errors *)
| Transient   (* except wait_errors *)
| Generic     (* except openai.OpenAIError *)
| Other.      (* except Exception *)

Definition classify (pol : policy) (e : exception) : handler :=
  if isinstance e (status_errors pol) then Rejected
  else if isinstance e (wait_errors pol) then Transient
  else if isinstance e [OpenAIError] then Generic
  else Other.

Definition docs_pointer : string :=
  "Please refer to `https://platform.openai.com/docs/guides/error-codes` for more information.".

(** [body.get(key, default)]: only a dict has a [get]. *)
Definition body_get (body : pybody) (key fallback : string)
    : result failure string :=
  match body with
  | BodyDict fields => Ok (default fallback (fields !! key))
  | BodyText _ => Err (AttributeError "'str' object has no attribute 'get'")
  | BodyNone => Err (AttributeError "'NoneType' object has no attribute 'get'")
  end.

(** The message built in the [except status_errors] clause. *)
Definition rejected_message (e : exception) : result failure string :=
  message ← body_get (body e) "message" docs_pointer;
  mret ("Error status " +:+ pretty (status_code e)
          +:+ " raised by OpenAI API: " +:+ message).

Definition exhausted_message (max_retries : Z) : string :=
  "Maximum number of retries (" +:+ pretty max_retries +:+ ") exceeded.".

Definition general_message (e : exception) : string :=
  "General " +:+ exn_str e +:+ " error raised by OpenAI. " +:+ docs_pointer.

(** [delay *= exponential_base * (1 + jitter * random.random())] with
    [r] the number drawn. *)
Definition next_delay (pol : policy) (delay r : R) : R :=
  (delay * (IZR (exponential_base pol) * (1 + IZR (Z.b2z (jitter pol)) * r)))%R.

(** What the wrapper does to the outside: calls of the wrapped function,
    calls of [time.sleep] (oldest first) and draws from [random]. *)
Record world : Type := {
  calls : nat;
  sleeps : list R;
  draws : nat
}.

Definition initial_world : world := {| calls := 0; sleeps := []; draws := 0 |}.

Definition called (w : world) : world :=
  {| calls := S (calls w); sleeps := sleeps w; draws := draws w |}.

Definition drew (w : world) : world :=
  {| calls := calls w; sleeps := sleeps w; draws := S (draws w) |}.

Definition slept (delay : R) (w : world) : world :=
  {| calls := calls w; sleeps := sleeps w ++ [delay]; draws := draws w |}.

Section Wrapper.

Context {fp : FloatOps}.

(** The wrapped function with its bound arguments: it has a state of its
    own, returns a value or raises. *)
Context {St V : Type}.
Variable func : St -> result exception V * St.

(** [random i] is the [i]-th number [random.random()] hands out. *)
Variable random : nat -> R.

Variable pol : policy.

(** The [while True] loop; [fuel] bounds the calls of [func]. *)
Fixpoint retry_loop (fuel : nat) (max_retries num_retries : Z) (delay : R)
    (s : St) (w : world) : option (result failure V * St * world) :=
  match fuel with
  | O => None
  | S fuel =>
    let '(r, s) := func s in
    let w := called w in
    match r with
    | Ok v => Some (Ok v, s, w)
    | Err e =>
      match classify pol e with
      | Rejected =>
        match rejected_message e with
        | Ok msg => Some (Err (Exception msg), s, w)
        | Err raised => Some (Err raised, s, w)
        end
      | Transient =>
        let num_retries := num_retries + 1 in
        if num_retries >? max_retries then
          Some (Err (Exception (exhausted_message max_retries)), s, w)
        else
          let delay := next_delay pol delay (random (draws w)) in
          let w := drew w in
          if Rlt_dec delay 0 then Some (Err ValueError, s, w)
          else retry_loop fuel max_retries num_retries delay s (slept delay w)
      | Generic => Some (Err (Exception (general_message e)), s, w)
      | Other => Some (Err (Reraised e), s, w)
      end
    end
  end.

Definition wrapper (fuel : nat) (s : St)
    : option (result failure V * St * world) :=
  let num_retries := 0 in
  let delay := initial_delay pol in
  match compute_max_retries pol with
  | Err e => Some (Err e, s, initial_world)
  | Ok max_retries =>
    retry_loop fuel max_retries num_retries delay s initial_world
  end.

(** The state of [func] after [n] calls, and what its call number [n]
    (counting from 0) gives. *)
Fixpoint state_after (n : nat) (s : St) : St :=
  match n with
  | O => s
  | S n => state_after n (snd (func s))
  end.

Definition outcome_at (s : St) (n : nat) : result exception V :=
  fst (func (state_after n s)).

(** The delays of [k] consecutive waits that start from [delay] with
    draw number [i] next. *)
Fixpoint backoff_delays (k : nat) (delay : R) (i : nat) : list R :=
  match k with
  | O => []
  | S k =>
    let delay := next_delay pol delay (random i) in
    delay :: backoff_delays k delay (S i)
  end.

(** The first [k] calls of [func] from state [s] raise errors that the
    [except wait_errors] clause takes. *)
Definition transient_prefix (s : St) (k : nat) : Prop :=
  forall i, (i < k)%nat ->
    exists e, outcome_at s i = Err e /\ classify pol e = Transient.

(** The value of [delay] after [k] waits, draw number [i] being next. *)
Fixpoint delay_after (k : nat) (delay : R) (i : nat) : R :=
  match k with
  | O => delay
  | S k => delay_after k (next_delay pol delay (random i)) (S i)
  end.

End Wrapper.

(** Float arithmetic without rounding and without overflow: the
    operations on finite values are those of the real numbers.  A
    statement that names no other arithmetic is about this one. *)
#[global] Instance exact_floats : FloatOps := {|
  float_mul x y :=
    match x, y with
    | Finite x, Finite y => Finite (x * y)
    | _, _ => NaN
    end;
  float_div x y :=
    match x, y with
    | Finite x, Finite y => Finite (x / y)
    | _, _ => NaN
    end;
  float_log x :=
    match x with
    | Finite x => Finite (ln x)
    | x => x
    end;
  int_log n := Finite (ln (IZR n));
  float_of_int n := Some (Finite (IZR n))
|}.




(** A wrapped function that goes through a fixed script of outcomes and
    then keeps raising a timeout. *)
Definition timeout_error : exception := {|
  exn_class_of := APITimeoutError;
  exn_str := "Request timed out.";
  status_code := 0;
  body := BodyNone
|}.


(** The default error tuples with other values for the numeric
    arguments and the jitter flag. *)
Definition custom_policy (initial_delay : R) (hour_budget : pyobj)
    (jitter : bool) (exponential_base : Z) : policy := {|
  initial_delay := initial_delay;
  hour_budget := hour_budget;
  jitter := jitter;
  exponential_base := exponential_base;
  wait_errors := wait_errors default_policy;
  status_errors := status_errors default_policy
|}.

(** Time spent in [time.sleep], all calls together. *)
Definition total_sleep (sleeps : list R) : R := foldr Rplus 0%R sleeps.

Definition pending_error : exception := {|
  exn_class_of := PendingFT;
  exn_str := "";
  status_code := 0;
  body := BodyNone
|}.

Definition plain_openai_error : exception := {|
  exn_class_of := OpenAIError;
  exn_str := "Missing credentials.";
  status_code := 0;
  body := BodyNone
|}.

Definition key_error : exception := {|
  exn_class_of := OtherException;
  exn_str := "'model'";
  status_code := 0;
  body := BodyNone
|}.

Definition half_draws : nat -> R := fun _ => (1 / 2)%R.

Definition status_500_no_body : exception := {|
  exn_class_of := APIStatusError;
  exn_str := "Error code: 500";
  status_code := 500;
  body := BodyNone
|}.

Definition status_502_text : exception := {|
  exn_class_of := APIStatusError;
  exn_str := "Bad Gateway";
  status_code := 502;
  body := BodyText "Bad Gateway"
|}.

Definition no_draws : nat -> R := fun _ => 0%R.

Definition scripted {V} (script : list (result exception V))
    : result exception V * list (result exception V) :=
  match script with
  | [] => (Err timeout_error, [])
  | r :: script => (r, script)
  end.

End Backoff.

(** * Properties of token counting and truncation *)

Module TokensFacts.
Import Tokens.

Lemma count_fields_formula encode (m : message) acc :
  count_fields encode m acc = acc + field_tokens encode m - name_discount m.
Proof.
  unfold count_fields, field_tokens, name_discount.
  induction m as [|k v m Hk Hfirst IH] using map_first_key_ind.
  - rewrite map_fold_empty, map_to_list_empty, lookup_empty. simpl. lia.
  - rewrite map_fold_insert_first_key by done.
    rewrite map_to_list_insert_first_key by done.
    rewrite IH. simpl. unfold fmap. clear IH.
    destruct (decide (k = "name")) as [->|Hne].
    + rewrite lookup_insert_eq, Hk. simpl. lia.
    + rewrite lookup_insert_ne by done.
      destruct (m !! "name"); simpl; lia.
Qed.

Lemma count_messages_formula encode (messages : list message) acc :
  foldl (count_message encode) acc messages
  = acc + foldr Z.add 0 (message_cost encode <$> messages).
Proof.
  revert acc. induction messages as [|m messages IH]; intros acc; simpl.
  - lia.
  - rewrite IH. unfold count_message.
    rewrite count_fields_formula. unfold message_cost at 2, fmap. lia.
Qed.

Lemma count_tokens_supported (messages : list message) encode model_name :
  contains chat_marker model_name = true ->
  count_tokens messages encode model_name = Ok (token_formula encode messages).
Proof.
  intros Hm. unfold count_tokens. rewrite Hm. simpl.
  rewrite count_messages_formula. reflexivity.
Qed.

Lemma field_tokens_nonneg encode (m : message) : 0 <= field_tokens encode m.
Proof.
  unfold field_tokens. induction (map_to_list m) as [|kv l IH]; simpl.
  - lia.
  - unfold fmap in IH. lia.
Qed.

(** ** The loop body on a sequence that starts with the priming message *)

Lemma loop_body_one m0 truncate :
  loop_body [m0] [m0] truncate = Return [m0].
Proof. reflexivity. Qed.

Lemma loop_body_two m0 m1 truncate :
  loop_body [m0] [m0; m1] truncate = Return [m0].
Proof. reflexivity. Qed.

Lemma loop_body_more m0 m1 m2 (rest : list message) truncate :
  exists rest',
    loop_body [m0] (m0 :: m1 :: m2 :: rest) truncate = Continue (m0 :: rest')
    /\ length rest' = S (length rest).
Proof.
  unfold loop_body. simpl length.
  destruct (decide (truncate = "first")).
  - exists (m2 :: rest). split; reflexivity.
  - exists (m1 :: take (length rest) (m2 :: rest)). split.
    + unfold slice_inner. cbn. rewrite ?Nat.sub_0_r. reflexivity.
    + simpl. rewrite length_take. simpl. f_equal. lia.
Qed.

Lemma while_loop_keeps_head encode model_name max_tokens truncate m0 :
  contains chat_marker model_name = true ->
  forall fuel (rest : list message) n_tokens,
    (length (m0 :: rest) <= fuel)%nat ->
    exists rest',
      while_loop fuel encode [m0] model_name max_tokens truncate
                 (m0 :: rest) n_tokens = Some (Ok (m0 :: rest')).
Proof.
  intros Hm. induction fuel as [|fuel IH]; intros rest n_tokens Hlen.
  - simpl in Hlen. lia.
  - cbn [while_loop]. destruct (n_tokens >? max_tokens); [|eauto].
    destruct rest as [|m1 [|m2 rest]].
    + rewrite loop_body_one. eauto.
    + rewrite loop_body_two. eauto.
    + destruct (loop_body_more m0 m1 m2 rest truncate) as (rest' & -> & Hl).
      rewrite (count_tokens_supported _ _ _ Hm).
      apply IH. simpl in *. lia.
Qed.

Lemma while_loop_fuel_mono encode sys_priming model_name max_tokens truncate :
  forall fuel fuel' (messages : list message) n_tokens r,
    while_loop fuel encode sys_priming model_name max_tokens truncate
               messages n_tokens = Some r ->
    (fuel <= fuel')%nat ->
    while_loop fuel' encode sys_priming model_name max_tokens truncate
               messages n_tokens = Some r.
Proof.
  induction fuel as [|fuel IH]; intros fuel' messages n_tokens r Hrun Hle.
  - discriminate.
  - destruct fuel' as [|fuel']; [lia|].
    cbn [while_loop] in *.
    destruct (n_tokens >? max_tokens); [|done].
    destruct (loop_body sys_priming messages truncate); [done|].
    destruct (count_tokens _ _ _); [|done].
    apply (IH fuel'); [done|lia].
Qed.

Lemma truncate_unfold encoding_for_model encode fuel (messages : list message)
    model_name max_tokens truncate :
  supported encoding_for_model model_name encode ->
  truncate_msgs_for_token_limit encoding_for_model fuel messages model_name
                                max_tokens truncate
  = while_loop fuel encode (take 1 messages) model_name max_tokens truncate
               messages (token_formula encode messages).
Proof.
  intros [Henc Hm]. unfold truncate_msgs_for_token_limit.
  rewrite Henc, (count_tokens_supported _ _ _ Hm). reflexivity.
Qed.

Lemma loop_body_empty truncate :
  loop_body (take 1 []) [] truncate = Continue [].
Proof. unfold loop_body. simpl. destruct (decide (truncate = "first")); reflexivity. Qed.

Lemma while_loop_empty_diverges encode model_name max_tokens truncate :
  contains chat_marker model_name = true ->
  max_tokens < 2 ->
  forall fuel,
    while_loop fuel encode (take 1 []) model_name max_tokens truncate [] 2 = None.
Proof.
  intros Hm Hmax. induction fuel as [|fuel IH]; [reflexivity|].
  cbn [while_loop]. replace (2 >? max_tokens) with true by lia.
  rewrite loop_body_empty, (count_tokens_supported _ _ _ Hm). exact IH.
Qed.

Lemma while_loop_within_budget fuel encode sys_priming model_name max_tokens
    truncate (messages : list message) n_tokens :
  n_tokens <= max_tokens ->
  while_loop (S fuel) encode sys_priming model_name max_tokens truncate
             messages n_tokens = Some (Ok messages).
Proof.
  intros Hle. cbn [while_loop].
  replace (n_tokens >? max_tokens) with false by lia. reflexivity.
Qed.

(** ** The claims *)

(** C5. On a sequence of at least one message and a supported model the
    truncator returns a sequence (the loop stops within [length messages]
    tests of its condition, and nothing is raised); one pass through the
    loop body either returns, which it does exactly on 1 or 2 remaining
    messages, or goes on with one message less. *)
Theorem truncate_terminates encoding_for_model encode (messages : list message)
    model_name max_tokens truncate :
  supported encoding_for_model model_name encode ->
  (1 <= length messages)%nat ->
  (exists out, forall fuel, (length messages <= fuel)%nat ->
     truncate_msgs_for_token_limit encoding_for_model fuel messages
       model_name max_tokens truncate = Some (Ok out))
  /\ (forall current : list message, (1 <= length current)%nat ->
        match loop_body (take 1 messages) current truncate with
        | Return _ => length current = 1%nat \/ length current = 2%nat
        | Continue next => S (length next) = length current
        end).
Proof.
  intros Hsup Hlen. destruct messages as [|m0 rest]; [simpl in Hlen; lia|].
  split.
  - destruct (while_loop_keeps_head encode model_name max_tokens truncate m0
                (proj2 Hsup) (length (m0 :: rest)) rest
                (token_formula encode (m0 :: rest)) (le_n _)) as [rest' Hrun].
    exists (m0 :: rest'). intros fuel Hfuel.
    rewrite (truncate_unfold _ _ _ _ _ _ _ Hsup).
    eapply while_loop_fuel_mono; [exact Hrun|exact Hfuel].
  - intros current Hcur. unfold loop_body.
    destruct current as [|a [|b [|c current]]]; simpl in Hcur |- *; try lia.
    destruct (decide (truncate = "first")).
    + reflexivity.
    + unfold slice_inner. cbn. rewrite ?Nat.sub_0_r.
      rewrite length_take. simpl. lia.
Qed.

Lemma truncate_terminates_witness :
  (exists out, forall fuel, (3 <= fuel)%nat ->
     truncate_msgs_for_token_limit stub_encoding_for_model fuel
       [msg_system_a; msg_user "hello"; msg_user "bye"]
       "gpt-3.5-turbo-0301" 20 "first" = Some (Ok out)).
Proof.
  apply (truncate_terminates stub_encoding_for_model char_encoder
           [msg_system_a; msg_user "hello"; msg_user "bye"]
           "gpt-3.5-turbo-0301" 20 "first").
  - split; reflexivity.
  - simpl. lia.
Defined.

(** C6. With the count above the maximum, the loop on exactly two
    messages returns the first one alone, and on exactly one message
    returns it as it is; so does the truncator on such inputs. *)
Theorem truncate_terminal_cases encoding_for_model encode (m0 m1 : message)
    model_name max_tokens truncate :
  supported encoding_for_model model_name encode ->
  (forall fuel sys_priming n_tokens, n_tokens > max_tokens ->
     while_loop (S fuel) encode sys_priming model_name max_tokens truncate
                [m0; m1] n_tokens = Some (Ok [m0]))
  /\ (forall fuel sys_priming n_tokens, n_tokens > max_tokens ->
     while_loop (S fuel) encode sys_priming model_name max_tokens truncate
                [m0] n_tokens = Some (Ok [m0]))
  /\ (forall fuel n_tokens,
        count_tokens [m0; m1] encode model_name = Ok n_tokens ->
        n_tokens > max_tokens ->
        truncate_msgs_for_token_limit encoding_for_model (S fuel) [m0; m1]
          model_name max_tokens truncate = Some (Ok [m0]))
  /\ (forall fuel n_tokens,
        count_tokens [m0] encode model_name = Ok n_tokens ->
        n_tokens > max_tokens ->
        truncate_msgs_for_token_limit encoding_for_model (S fuel) [m0]
          model_name max_tokens truncate = Some (Ok [m0])).
Proof.
  intros [Henc Hm].
  assert (Htwo : forall fuel sys_priming n_tokens, n_tokens > max_tokens ->
     while_loop (S fuel) encode sys_priming model_name max_tokens truncate
                [m0; m1] n_tokens = Some (Ok [m0])).
  { intros fuel sys n Hn. cbn [while_loop].
    replace (n >? max_tokens) with true by lia. reflexivity. }
  assert (Hone : forall fuel sys_priming n_tokens, n_tokens > max_tokens ->
     while_loop (S fuel) encode sys_priming model_name max_tokens truncate
                [m0] n_tokens = Some (Ok [m0])).
  { intros fuel sys n Hn. cbn [while_loop].
    replace (n >? max_tokens) with true by lia. reflexivity. }
  repeat split; auto.
  - intros fuel n Hcount Hn. unfold truncate_msgs_for_token_limit.
    rewrite Henc, Hcount. apply Htwo, Hn.
  - intros fuel n Hcount Hn. unfold truncate_msgs_for_token_limit.
    rewrite Henc, Hcount. apply Hone, Hn.
Qed.

Lemma truncate_terminal_cases_witness :
  truncate_msgs_for_token_limit stub_encoding_for_model 1
    [msg_system_a; msg_user "hello"] "gpt-3.5-turbo-0301" 5 "first"
  = Some (Ok [msg_system_a])
  /\ truncate_msgs_for_token_limit stub_encoding_for_model 1
       [msg_system_a] "gpt-3.5-turbo-0301" 5 "last"
     = Some (Ok [msg_system_a]).
Proof.
  split.
  - refine (proj1 (proj2 (proj2
      (truncate_terminal_cases stub_encoding_for_model char_encoder
         msg_system_a (msg_user "hello") "gpt-3.5-turbo-0301" 5 "first" _)))
      0%nat 26 _ _).
    + split; reflexivity.
    + vm_compute. reflexivity.
    + lia.
  - refine (proj2 (proj2 (proj2
      (truncate_terminal_cases stub_encoding_for_model char_encoder
         msg_system_a (msg_user "hello") "gpt-3.5-turbo-0301" 5 "last" _)))
      0%nat 13 _ _).
    + split; reflexivity.
    + vm_compute. reflexivity.
    + lia.
Defined.

(** C7. On a sequence of at least one message (any maximum, any value of
    the [truncate] flag, supported model) the truncator returns a
    non-empty sequence whose first message is the first message of the
    input. *)
Theorem truncate_keeps_priming encoding_for_model encode
    (messages : list message) model_name max_tokens truncate :
  supported encoding_for_model model_name encode ->
  (1 <= length messages)%nat ->
  exists out,
    (forall fuel, (length messages <= fuel)%nat ->
       truncate_msgs_for_token_limit encoding_for_model fuel messages
         model_name max_tokens truncate = Some (Ok out))
    /\ out <> []
    /\ head out = head messages.
Proof.
  intros Hsup Hlen. destruct messages as [|m0 rest]; [simpl in Hlen; lia|].
  destruct (while_loop_keeps_head encode model_name max_tokens truncate m0
              (proj2 Hsup) (length (m0 :: rest)) rest
              (token_formula encode (m0 :: rest)) (le_n _)) as [rest' Hrun].
  exists (m0 :: rest'). split; [|split; [discriminate|reflexivity]].
  intros fuel Hfuel. rewrite (truncate_unfold _ _ _ _ _ _ _ Hsup).
  eapply while_loop_fuel_mono; [exact Hrun|exact Hfuel].
Qed.

Lemma truncate_keeps_priming_witness :
  exists out,
    (forall fuel, (3 <= fuel)%nat ->
       truncate_msgs_for_token_limit stub_encoding_for_model fuel
         [msg_system_a; msg_user "hello"; msg_user "bye"]
         "gpt-3.5-turbo-0301" 20 "last" = Some (Ok out))
    /\ out <> []
    /\ head out = Some msg_system_a.
Proof.
  apply (truncate_keeps_priming stub_encoding_for_model char_encoder
           [msg_system_a; msg_user "hello"; msg_user "bye"]
           "gpt-3.5-turbo-0301" 20 "last").
  - split; reflexivity.
  - simpl. lia.
Defined.

(** C8. A sequence whose token count does not exceed the maximum comes
    back unchanged. *)
Theorem truncate_within_budget encoding_for_model encode
    (messages : list message) model_name max_tokens truncate n_tokens fuel :
  supported encoding_for_model model_name encode ->
  count_tokens messages encode model_name = Ok n_tokens ->
  n_tokens <= max_tokens ->
  truncate_msgs_for_token_limit encoding_for_model (S fuel) messages
    model_name max_tokens truncate = Some (Ok messages).
Proof.
  intros [Henc Hm] Hcount Hle. unfold truncate_msgs_for_token_limit.
  rewrite Henc, Hcount. apply while_loop_within_budget, Hle.
Qed.

Lemma truncate_within_budget_witness :
  truncate_msgs_for_token_limit stub_encoding_for_model 1
    [msg_system_a; msg_user "hello"] "gpt-3.5-turbo-0301" 26 "first"
  = Some (Ok [msg_system_a; msg_user "hello"]).
Proof.
  apply (truncate_within_budget stub_encoding_for_model char_encoder
           [msg_system_a; msg_user "hello"] "gpt-3.5-turbo-0301" 26 "first"
           26 0).
  - split; reflexivity.
  - vm_compute. reflexivity.
  - lia.
Defined.

(** C9. For a model name that contains the chat-family marker and any
    encoder, the count is the sum over the messages of 4 plus the encoded
    lengths of all field values, less 1 when there is a [name] field,
    plus 2 at the end; on the one message
    [{"role": "system", "content": "a"}] that is
    4 + tokens("system") + tokens("a") + 2. *)
Theorem count_tokens_formula (messages : list message) encode model_name :
  contains chat_marker model_name = true ->
  count_tokens messages encode model_name = Ok (token_formula encode messages)
  /\ count_tokens [msg_system_a] encode model_name
     = Ok (4 + Z.of_nat (length (encode "system"))
             + Z.of_nat (length (encode "a")) + 2).
Proof.
  intros Hm. split; [apply count_tokens_supported, Hm|].
  rewrite (count_tokens_supported _ _ _ Hm). f_equal.
  unfold token_formula, message_cost, field_tokens, name_discount.
  cbn [fmap list_fmap foldr].
  let fields := eval vm_compute in (map_to_list msg_system_a) in
  change (map_to_list msg_system_a) with fields.
  let name := eval vm_compute in (msg_system_a !! "name") in
  change (msg_system_a !! "name") with name.
  simpl. lia.
Qed.

Lemma count_tokens_formula_witness :
  count_tokens [msg_system_a; msg_user "hello"] char_encoder "gpt-3.5-turbo-0301"
  = Ok (token_formula char_encoder [msg_system_a; msg_user "hello"])
  /\ count_tokens [msg_system_a] char_encoder "gpt-3.5-turbo-0301"
     = Ok (4 + 6 + 1 + 2).
Proof.
  apply (count_tokens_formula [msg_system_a; msg_user "hello"] char_encoder
           "gpt-3.5-turbo-0301").
  reflexivity.
Defined.

(** C10. On the empty sequence the count is 2 and a pass through the loop
    body leaves the empty sequence as it is; so, for a supported model,
    the truncator returns on the empty sequence exactly when the maximum
    is at least 2 (and then returns the empty sequence), and otherwise
    its loop never ends. *)
Theorem truncate_empty encoding_for_model encode model_name max_tokens truncate :
  supported encoding_for_model model_name encode ->
  count_tokens [] encode model_name = Ok 2
  /\ loop_body (take 1 []) [] truncate = Continue []
  /\ ((exists fuel r,
         truncate_msgs_for_token_limit encoding_for_model fuel []
           model_name max_tokens truncate = Some r)
      <-> 2 <= max_tokens)
  /\ (2 <= max_tokens -> forall fuel,
        truncate_msgs_for_token_limit encoding_for_model (S fuel) []
          model_name max_tokens truncate = Some (Ok []))
  /\ (max_tokens < 2 -> forall fuel,
        truncate_msgs_for_token_limit encoding_for_model fuel []
          model_name max_tokens truncate = None).
Proof.
  intros Hsup.
  assert (Hcount : count_tokens [] encode model_name = Ok 2).
  { rewrite (count_tokens_supported _ _ _ (proj2 Hsup)). reflexivity. }
  assert (Hret : 2 <= max_tokens -> forall fuel,
     truncate_msgs_for_token_limit encoding_for_model (S fuel) []
       model_name max_tokens truncate = Some (Ok [])).
  { intros Hmax fuel. rewrite (truncate_unfold _ _ _ _ _ _ _ Hsup).
    apply while_loop_within_budget. exact Hmax. }
  assert (Hdiv : max_tokens < 2 -> forall fuel,
     truncate_msgs_for_token_limit encoding_for_model fuel []
       model_name max_tokens truncate = None).
  { intros Hmax fuel. rewrite (truncate_unfold _ _ _ _ _ _ _ Hsup).
    apply while_loop_empty_diverges; [exact (proj2 Hsup)|exact Hmax]. }
  repeat split; auto using loop_body_empty.
  - intros (fuel & r & Hrun).
    destruct (Z_lt_le_dec max_tokens 2) as [Hlt|Hge]; [|exact Hge].
    rewrite (Hdiv Hlt fuel) in Hrun. discriminate.
  - intros Hmax. exists 1%nat, (Ok []). apply Hret, Hmax.
Qed.

Lemma truncate_empty_witness :
  count_tokens [] char_encoder "gpt-3.5-turbo-0301" = Ok 2
  /\ (forall fuel,
        truncate_msgs_for_token_limit stub_encoding_for_model fuel []
          "gpt-3.5-turbo-0301" 1 "first" = None).
Proof.
  destruct (truncate_empty stub_encoding_for_model char_encoder
              "gpt-3.5-turbo-0301" 1 "first") as (H1 & _ & _ & _ & H5).
  - split; reflexivity.
  - split; [exact H1|apply H5; lia].
Defined.

End TokensFacts.

(** * Properties of the retry wrapper *)

Module BackoffFacts.
Import Backoff.
Local Open Scope R_scope.

(** ** The retry budget *)

Lemma math_log_float_ok {fp : FloatOps} (x : R) :
  0 < x -> math_log (FloatVal (Finite x)) = Ok (float_log (Finite x)).
Proof. intros Hx. simpl. destruct (Rlt_dec 0 x); [reflexivity|contradiction]. Qed.

Lemma math_log_float_domain {fp : FloatOps} (x : R) :
  x <= 0 -> math_log (FloatVal (Finite x)) = Err ValueError.
Proof. intros Hx. simpl. destruct (Rlt_dec 0 x); [lra|reflexivity]. Qed.

Lemma math_log_int_ok {fp : FloatOps} (n : Z) :
  (0 < n)%Z -> math_log (IntVal n) = Ok (int_log n).
Proof. intros Hn. simpl. destruct (Z.ltb_spec 0 n); [reflexivity|lia]. Qed.

Lemma math_log_int_domain {fp : FloatOps} (n : Z) :
  (n <= 0)%Z -> math_log (IntVal n) = Err ValueError.
Proof. intros Hn. simpl. destruct (Z.ltb_spec 0 n); [lia|reflexivity]. Qed.

Lemma is_zero_finite (x : R) : x <> 0 -> is_zero (Finite x) = false.
Proof. intros Hx. simpl. destruct (Req_dec_T x 0); [contradiction|reflexivity]. Qed.


Lemma py_round_low x z : IZR z <= x < IZR z + 1 / 2 -> py_round x = z.
Proof.
  intros [Hlo Hhi]. unfold py_round.
  assert (Hint : Int_part x = z).
  { symmetry. apply Int_part_spec. lra. }
  rewrite Hint. destruct (Rlt_dec (x - IZR z) (1 / 2)); [reflexivity|lra].
Qed.

Lemma ln_2_pos : 0 < ln 2.
Proof. pose proof ln_lt_2. lra. Qed.

Lemma ln_base_nonzero (b : Z) : (0 < b)%Z -> b <> 1%Z -> ln (IZR b) <> 0.
Proof.
  intros Hpos Hne Hln. apply Hne, eq_IZR.
  apply ln_inv; [apply IZR_lt, Hpos|lra|]. rewrite Hln, ln_1. reflexivity.
Qed.

Lemma max_retries_at_least_one {fp : FloatOps} pol n :
  compute_max_retries pol = Ok n -> (1 <= n)%Z.
Proof.
  unfold compute_max_retries.
  destruct (match as_numeric (hour_budget pol) with
            | Some hb => guarded_retries pol hb
            | None => Ok 10%Z
            end) as [m|e]; simpl; intros Heq; [|discriminate].
  injection Heq as <-. lia.
Qed.

(** With [exact_floats] the computation is the one over the reals. *)

Lemma exact_product (o : pyobj) (hb : R) :
  as_number o = Some hb ->
  exists x,
    as_numeric o = Some x
    /\ to_float (fp := exact_floats) (times_3600 x) = Ok (Finite (hb * 3600)).
Proof.
  intros Hnum. destruct o as [[x| |]|n|]; simpl in Hnum; try discriminate.
  - injection Hnum as <-. exists (FloatVal (Finite x)). split; reflexivity.
  - injection Hnum as <-. exists (IntVal n). split; [reflexivity|].
    simpl. rewrite mult_IZR. reflexivity.
Qed.

Lemma exact_ratio pol (hb : R) :
  as_number (hour_budget pol) = Some hb ->
  initial_delay pol <> 0 ->
  exists x,
    as_numeric (hour_budget pol) = Some x
    /\ budget_ratio (fp := exact_floats) pol x
       = Ok (Finite (hb * 3600 / initial_delay pol)).
Proof.
  intros Hnum Hd. destruct (exact_product _ _ Hnum) as (x & Hx & Hprod).
  exists x. split; [exact Hx|].
  unfold budget_ratio, true_div. rewrite Hprod. simpl.
  destruct (Req_dec_T (initial_delay pol) 0); [contradiction|reflexivity].
Qed.

Lemma exact_ratio_zero pol (hb : R) :
  as_number (hour_budget pol) = Some hb ->
  initial_delay pol = 0 ->
  exists x,
    as_numeric (hour_budget pol) = Some x
    /\ budget_ratio (fp := exact_floats) pol x = Err ZeroDivisionError.
Proof.
  intros Hnum Hd. destruct (exact_product _ _ Hnum) as (x & Hx & Hprod).
  exists x. split; [exact Hx|].
  unfold budget_ratio, true_div. rewrite Hprod, Hd. simpl.
  destruct (Req_dec_T 0 0); [reflexivity|contradiction].
Qed.

Lemma exact_budget_quotient pol (hb : R) :
  as_number (hour_budget pol) = Some hb ->
  initial_delay pol <> 0 ->
  0 < hb * 3600 / initial_delay pol ->
  (0 < exponential_base pol)%Z ->
  exponential_base pol <> 1%Z ->
  exists x,
    as_numeric (hour_budget pol) = Some x
    /\ budget_quotient (fp := exact_floats) pol x
       = Ok (Finite (exact_quotient pol hb)).
Proof.
  intros Hnum Hd Hratio Hb Hb1.
  destruct (exact_ratio pol hb Hnum Hd) as (x & Hx & Hr).
  exists x. split; [exact Hx|].
  unfold budget_quotient. rewrite Hr. cbn [mbind result_bind].
  rewrite math_log_float_ok by exact Hratio. cbn [mbind result_bind].
  rewrite math_log_int_ok by exact Hb. cbn [mbind result_bind].
  unfold true_div. cbn [to_float mbind result_bind int_log float_log exact_floats].
  rewrite is_zero_finite by (apply ln_base_nonzero; assumption).
  reflexivity.
Qed.

Lemma guarded_retries_ok pol hb :
  as_number (hour_budget pol) = Some hb ->
  initial_delay pol <> 0 ->
  0 < hb * 3600 / initial_delay pol ->
  (0 < exponential_base pol)%Z ->
  exponential_base pol <> 1%Z ->
  compute_max_retries pol
  = Ok (Z.max 1 (py_round (ln (hb * 3600 / initial_delay pol)
                           / ln (IZR (exponential_base pol))))).
Proof.
  intros Hnum Hd Hratio Hb Hb1.
  destruct (exact_budget_quotient pol hb Hnum Hd Hratio Hb Hb1) as (x & Hx & Hq).
  unfold compute_max_retries, guarded_retries, budget_retries.
  rewrite Hx, Hq. reflexivity.
Qed.

Lemma default_ratio_bounds : 10 <= ln (0.3 * 3600 / 1) / ln 2 < 10 + 1 / 2.
Proof.
  pose proof ln_2_pos as H2.
  replace (0.3 * 3600 / 1) with 1080 by lra.
  assert (Hlo : 10 * ln 2 < ln 1080).
  { replace (10 * ln 2) with (INR 10 * ln 2) by (simpl; lra).
    rewrite <- ln_pow by lra. apply ln_increasing; [apply pow_lt|]; lra. }
  assert (Hhi : 2 * ln 1080 < 21 * ln 2).
  { replace (2 * ln 1080) with (INR 2 * ln 1080) by (simpl; lra).
    replace (21 * ln 2) with (INR 21 * ln 2) by (simpl; lra).
    rewrite <- !ln_pow by lra. apply ln_increasing; [apply pow_lt|]; lra. }
  split.
  - apply Rmult_le_reg_r with (ln 2); [exact H2|]. field_simplify; lra.
  - apply Rmult_lt_reg_r with (ln 2); [exact H2|]. field_simplify; lra.
Qed.

Lemma default_max_retries : compute_max_retries default_policy = Ok 10%Z.
Proof.
  rewrite (guarded_retries_ok default_policy 0.3);
    [|reflexivity|simpl; lra|simpl; lra|simpl; lia|simpl; lia].
  simpl initial_delay. simpl exponential_base.
  rewrite (py_round_low _ 10) by apply default_ratio_bounds. reflexivity.
Qed.

(** ** The loop *)

Section Loop.

Context {St V : Type}.
Variable func : St -> result exception V * St.
Variable random : nat -> R.
Variable pol : policy.

Local Abbreviation transient_prefix := (transient_prefix func pol).
Local Abbreviation delay_after := (delay_after random pol).

Hypothesis base_nonneg : (0 <= exponential_base pol)%Z.
Hypothesis random_range : forall i, 0 <= random i < 1.

Lemma next_delay_nonneg delay i : 0 <= delay -> 0 <= next_delay pol delay (random i).
Proof.
  intros Hd. unfold next_delay.
  apply Rmult_le_pos; [exact Hd|].
  apply Rmult_le_pos; [apply IZR_le, base_nonneg|].
  destruct (random_range i) as [Hr _].
  destruct (jitter pol); simpl; lra.
Qed.

Lemma transient_prefix_tail s k :
  transient_prefix s (S k) -> transient_prefix (snd (func s)) k.
Proof. intros H i Hi. apply (H (S i)). lia. Qed.

Lemma retry_loop_transient k :
  forall max_retries num_retries delay s w,
    transient_prefix s k ->
    (num_retries + Z.of_nat k <= max_retries)%Z ->
    0 <= delay ->
    exists w',
      (forall fuel,
         retry_loop func random pol (k + fuel) max_retries num_retries delay s w
         = retry_loop func random pol fuel max_retries
             (num_retries + Z.of_nat k) (delay_after k delay (draws w))
             (state_after func k s) w')
      /\ calls w' = (calls w + k)%nat
      /\ sleeps w' = sleeps w ++ backoff_delays random pol k delay (draws w)
      /\ draws w' = (draws w + k)%nat.
Proof.
  induction k as [|k IH]; intros max_retries num_retries delay s w Hpre Hle Hd.
  - exists w. simpl. rewrite Z.add_0_r, app_nil_r, !Nat.add_0_r. auto.
  - destruct (Hpre 0%nat ltac:(lia)) as (e & Hout & Hcls).
    unfold outcome_at in Hout. simpl in Hout.
    pose proof (transient_prefix_tail s k Hpre) as Ht.
    cbn [state_after].
    destruct (func s) as [r s1] eqn:Hf. simpl in Hout, Ht |- *. subst r.
    set (delay1 := next_delay pol delay (random (draws w))).
    assert (Hd1 : 0 <= delay1) by (apply next_delay_nonneg, Hd).
    destruct (IH max_retries (num_retries + 1)%Z delay1 s1
                (slept delay1 (drew (called w))) Ht ltac:(lia) Hd1)
      as (w' & Hrun & Hc & Hs & Hdr).
    exists w'. simpl in Hc, Hs, Hdr. split; [|split; [|split]].
    + intros fuel. cbn [retry_loop]. rewrite Hf, Hcls.
      replace (num_retries + 1 >? max_retries)%Z with false by lia.
      change (draws (called w)) with (draws w). fold delay1.
      destruct (Rlt_dec delay1 0) as [Hneg|_]; [lra|].
      rewrite Hrun. f_equal. lia.
    + lia.
    + rewrite Hs, <- app_assoc. reflexivity.
    + lia.
Qed.

Lemma length_backoff_delays k delay i :
  length (backoff_delays random pol k delay i) = k.
Proof.
  revert delay i. induction k as [|k IH]; intros delay i; simpl; [|rewrite IH]; reflexivity.
Qed.

Lemma backoff_delays_no_jitter k :
  jitter pol = false ->
  forall delay i j, (j < k)%nat ->
    backoff_delays random pol k delay i !! j
    = Some (delay * IZR (exponential_base pol) ^ S j).
Proof.
  intros Hj. induction k as [|k IH]; intros delay i j Hlt; [lia|].
  cbn [backoff_delays].
  assert (Hnext : next_delay pol delay (random i)
                  = delay * IZR (exponential_base pol)).
  { unfold next_delay. rewrite Hj. simpl. ring. }
  rewrite Hnext. destruct j as [|j].
  - simpl. f_equal. ring.
  - simpl. rewrite IH by lia. f_equal. simpl. ring.
Qed.

End Loop.

(** ** The claims *)

Section Claims.

Context {fp : FloatOps}.
Context {St V : Type}.
Variable func : St -> result exception V * St.
Variable random : nat -> R.
Variable pol : policy.

(** C1. When every call of the wrapped function raises an error of the
    wait class, the wrapper calls it [max_retries + 1] times, sleeps
    [max_retries] times, and then raises the exception whose message is
    "Maximum number of retries (max_retries) exceeded.". *)
Theorem retries_exhausted (s : St) (max_retries : Z) :
  compute_max_retries pol = Ok max_retries ->
  0 <= initial_delay pol ->
  (0 <= exponential_base pol)%Z ->
  (forall i, 0 <= random i < 1) ->
  (forall i, exists e,
      outcome_at func s i = Err e /\ classify pol e = Transient) ->
  exists s' w,
    (forall fuel, (Z.to_nat max_retries < fuel)%nat ->
       wrapper func random pol fuel s
       = Some (Err (Exception (exhausted_message max_retries)), s', w))
    /\ Z.of_nat (calls w) = (max_retries + 1)%Z
    /\ Z.of_nat (length (sleeps w)) = max_retries
    /\ exhausted_message max_retries
       = "Maximum number of retries (" +:+ pretty max_retries +:+ ") exceeded.".
Proof.
  intros Hmax Hd Hb Hr Hall.
  pose proof (max_retries_at_least_one pol max_retries Hmax) as Hone.
  set (k := Z.to_nat max_retries).
  destruct (retry_loop_transient func random pol Hb Hr k max_retries 0%Z
              (initial_delay pol) s initial_world) as (w' & Hrun & Hc & Hs & _).
  { intros i _. apply Hall. }
  { subst k. lia. }
  { exact Hd. }
  destruct (Hall k) as (e & Hout & Hcls).
  unfold outcome_at in Hout.
  destruct (func (state_after func k s)) as [r s'] eqn:Hf. simpl in Hout. subst r.
  exists s', (called w'). split; [|split; [|split]].
  - intros fuel Hfuel. unfold wrapper. rewrite Hmax.
    replace fuel with (k + S (fuel - S k))%nat by lia.
    rewrite Hrun. cbn [retry_loop]. rewrite Hf, Hcls.
    replace (0 + Z.of_nat k + 1 >? max_retries)%Z with true
      by (symmetry; apply Z.gtb_lt; subst k; lia).
    reflexivity.
  - simpl. rewrite Hc. simpl. subst k. lia.
  - simpl. rewrite Hs. simpl. rewrite length_backoff_delays. subst k. lia.
  - reflexivity.
Qed.

(** C2. When the first [k <= max_retries] calls raise errors of the wait
    class and call [k] returns [v], the wrapper returns [v] after [k]
    sleeps; with jitter off the first sleep lasts
    [initial_delay * exponential_base] and each later one lasts the one
    before it times [exponential_base], so that with a positive initial
    delay and a base of at least 2 the delays grow strictly, by a ratio
    of at least [exponential_base]. *)
Theorem retry_until_success (s : St) (k : nat) (v : V) (max_retries : Z) :
  compute_max_retries pol = Ok max_retries ->
  0 <= initial_delay pol ->
  (0 <= exponential_base pol)%Z ->
  (forall i, 0 <= random i < 1) ->
  (forall i, (i < k)%nat -> exists e,
      outcome_at func s i = Err e /\ classify pol e = Transient) ->
  outcome_at func s k = Ok v ->
  (Z.of_nat k <= max_retries)%Z ->
  exists s' w,
    (forall fuel, (k < fuel)%nat ->
       wrapper func random pol fuel s = Some (Ok v, s', w))
    /\ calls w = S k
    /\ length (sleeps w) = k
    /\ (jitter pol = false ->
        (forall i, (i < k)%nat ->
           sleeps w !! i
           = Some (initial_delay pol * IZR (exponential_base pol) ^ S i))
        /\ ((0 < k)%nat ->
            sleeps w !! 0%nat
            = Some (initial_delay pol * IZR (exponential_base pol)))
        /\ (forall i d d',
              sleeps w !! i = Some d -> sleeps w !! S i = Some d' ->
              d' = d * IZR (exponential_base pol))
        /\ (0 < initial_delay pol -> (2 <= exponential_base pol)%Z ->
            forall i d d',
              sleeps w !! i = Some d -> sleeps w !! S i = Some d' ->
              d < d' /\ IZR (exponential_base pol) <= d' / d)).
Proof.
  intros Hmax Hd Hb Hr Hpre Hok Hle.
  destruct (retry_loop_transient func random pol Hb Hr k max_retries 0%Z
              (initial_delay pol) s initial_world Hpre ltac:(lia) Hd)
    as (w' & Hrun & Hc & Hs & _).
  unfold outcome_at in Hok.
  destruct (func (state_after func k s)) as [r s'] eqn:Hf. simpl in Hok. subst r.
  simpl in Hc, Hs.
  exists s', (called w'). split; [|split; [|split]].
  - intros fuel Hfuel. unfold wrapper. rewrite Hmax.
    replace fuel with (k + S (fuel - S k))%nat by lia.
    rewrite Hrun. cbn [retry_loop]. rewrite Hf. reflexivity.
  - simpl. rewrite Hc. reflexivity.
  - simpl. rewrite Hs. apply length_backoff_delays.
  - intros Hj. simpl sleeps. rewrite Hs.
    pose proof (backoff_delays_no_jitter random pol k Hj (initial_delay pol) 0%nat)
      as Hclosed.
    assert (Hlt : forall i d,
              backoff_delays random pol k (initial_delay pol) 0 !! i = Some d ->
              (i < k)%nat).
    { intros i d Hi. apply lookup_lt_Some in Hi.
      rewrite length_backoff_delays in Hi. exact Hi. }
    assert (Hstep : forall i d d',
              backoff_delays random pol k (initial_delay pol) 0 !! i = Some d ->
              backoff_delays random pol k (initial_delay pol) 0 !! S i = Some d' ->
              d' = d * IZR (exponential_base pol)
              /\ d = initial_delay pol * IZR (exponential_base pol) ^ S i).
    { intros i d d' Hi HSi.
      pose proof (Hlt _ _ HSi) as HltS.
      rewrite Hclosed in Hi by lia. rewrite Hclosed in HSi by lia.
      injection Hi as <-. injection HSi as <-. split; [simpl; ring|reflexivity]. }
    split; [exact Hclosed|]. split; [|split].
    + intros Hk. rewrite Hclosed by exact Hk. f_equal. simpl. ring.
    + intros i d d' Hi HSi. apply (Hstep i d d' Hi HSi).
    + intros Hpos Hbase i d d' Hi HSi.
      destruct (Hstep i d d' Hi HSi) as [-> Hdeq].
      assert (Hb2 : 2 <= IZR (exponential_base pol)) by (apply IZR_le, Hbase).
      assert (Hdpos : 0 < d).
      { rewrite Hdeq. apply Rmult_lt_0_compat; [exact Hpos|].
        apply pow_lt. lra. }
      split; [nra|].
      unfold Rdiv. rewrite Rmult_comm, <- Rmult_assoc, Rinv_l by lra. lra.
Qed.


End Claims.

(** ** The value of the retry budget *)






(** ** The claims on a scripted function *)

Lemma scripted_exhausted {V} n :
  state_after (@scripted V) n [] = [].
Proof. induction n as [|n IH]; [reflexivity|exact IH]. Qed.

Lemma no_draws_range i : 0 <= no_draws i < 1.
Proof. unfold no_draws. lra. Qed.

Lemma retries_exhausted_witness :
  exists s' w,
    (forall fuel, (10 < fuel)%nat ->
       wrapper (@scripted Z) no_draws default_policy fuel []
       = Some (Err (Exception (exhausted_message 10)), s', w))
    /\ Z.of_nat (calls w) = 11%Z
    /\ Z.of_nat (length (sleeps w)) = 10%Z
    /\ exhausted_message 10 = "Maximum number of retries (10) exceeded.".
Proof.
  apply (retries_exhausted (@scripted Z) no_draws default_policy [] 10%Z).
  - exact default_max_retries.
  - simpl. lra.
  - simpl. lia.
  - exact no_draws_range.
  - intros i. exists timeout_error. split.
    + unfold outcome_at. rewrite scripted_exhausted. reflexivity.
    + reflexivity.
Defined.

Lemma retry_until_success_witness :
  exists s' w,
    (forall fuel, (2 < fuel)%nat ->
       wrapper scripted no_draws default_policy fuel
               [Err timeout_error; Err timeout_error; Ok 42%Z]
       = Some (Ok 42%Z, s', w))
    /\ calls w = 3%nat
    /\ length (sleeps w) = 2%nat
    /\ sleeps w !! 0%nat = Some (1 * 2).
Proof.
  destruct (retry_until_success scripted no_draws default_policy
              [Err timeout_error; Err timeout_error; Ok 42%Z] 2 42%Z 10%Z)
    as (s' & w & Hrun & Hcalls & Hsleeps & Hdelays).
  - exact default_max_retries.
  - simpl. lra.
  - simpl. lia.
  - exact no_draws_range.
  - intros i Hi. exists timeout_error.
    destruct i as [|[|i]]; [split; reflexivity|split; reflexivity|lia].
  - reflexivity.
  - lia.
  - exists s', w. repeat split; auto.
    apply (proj1 (proj2 (Hdelays eq_refl))). lia.
Defined.


(** C4. A status error without a body, or with a text body, does not
    give the exception with the status code and the fallback message:
    the [get] on the body raises [AttributeError] inside the handler,
    and that is what leaves the wrapper (after one call, without a
    sleep). *)
Theorem status_error_without_body :
  wrapper scripted no_draws default_policy 1
          [Err status_500_no_body; Ok 42%Z]
  = Some (Err (AttributeError "'NoneType' object has no attribute 'get'"),
          [Ok 42%Z], {| calls := 1; sleeps := []; draws := 0 |})
  /\ wrapper scripted no_draws default_policy 1
             [Err status_502_text; Ok 42%Z]
     = Some (Err (AttributeError "'str' object has no attribute 'get'"),
             [Ok 42%Z], {| calls := 1; sleeps := []; draws := 0 |}).
Proof.
  unfold wrapper. rewrite default_max_retries. split; reflexivity.
Qed.




End BackoffFacts.

(** * Further properties of token counting and truncation *)

Module TokensMore.
Import Tokens TokensFacts.

(** ** Counting *)

Lemma name_discount_le_one (m : message) : 0 <= name_discount m <= 1.
Proof. unfold name_discount. destruct (decide (is_Some (m !! "name"))); lia. Qed.

Lemma message_cost_ge_three encode (m : message) : 3 <= message_cost encode m.
Proof.
  unfold message_cost.
  pose proof (field_tokens_nonneg encode m).
  pose proof (name_discount_le_one m). lia.
Qed.

Lemma token_formula_lower encode (messages : list message) :
  3 * Z.of_nat (length messages) + 2 <= token_formula encode messages.
Proof.
  unfold token_formula. induction messages as [|m messages IH].
  - simpl. lia.
  - rewrite fmap_cons. cbn [foldr length].
    pose proof (message_cost_ge_three encode m). lia.
Qed.

Lemma token_formula_app encode (a b : list message) :
  token_formula encode (a ++ b)
  = token_formula encode a + token_formula encode b - 2.
Proof.
  unfold token_formula. induction a as [|m a IH].
  - simpl. lia.
  - rewrite <- app_comm_cons, !fmap_cons. cbn [foldr]. lia.
Qed.

Lemma token_formula_perm encode (a b : list message) :
  a ≡ₚ b -> token_formula encode a = token_formula encode b.
Proof.
  intros Hp. unfold token_formula. f_equal.
  induction Hp as [|m a b _ IH|m1 m2 a|a b c _ IH1 _ IH2].
  - reflexivity.
  - rewrite !fmap_cons. cbn [foldr]. lia.
  - rewrite !fmap_cons. cbn [foldr]. lia.
  - lia.
Qed.

(** ** The sequences the loop goes through *)

Lemma loop_body_single sys_priming (l : list message) truncate :
  length l = 1%nat -> loop_body sys_priming l truncate = Return l.
Proof. intros Hl. unfold loop_body. rewrite Hl. reflexivity. Qed.

Lemma loop_body_pair sys_priming (l : list message) truncate :
  length l = 2%nat -> loop_body sys_priming l truncate = Return (slice_but_last l).
Proof. intros Hl. unfold loop_body. rewrite Hl. reflexivity. Qed.

Section Candidates.

(** [cand j] is the sequence the loop holds after [j] rounds, out of [n]
    messages at the start. *)
Variable m0 : message.
Variable cand : nat -> list message.
Variable n : nat.
Variables (encode : encoder) (model_name : string) (max_tokens : Z).
Variable truncate : string.

Hypothesis marker : contains chat_marker model_name = true.
Hypothesis cand_length : forall j, (j < n)%nat -> length (cand j) = (n - j)%nat.
Hypothesis cand_step : forall j, (3 <= n - j)%nat ->
  loop_body [m0] (cand j) truncate = Continue (cand (S j)).
Hypothesis cand_pair : forall j, (n - j = 2)%nat ->
  slice_but_last (cand j) = cand (S j).

Lemma while_loop_candidates :
  forall fuel j,
    (j < n)%nat ->
    (n - j <= fuel)%nat ->
    (forall j', (j' < j)%nat -> token_formula encode (cand j') > max_tokens) ->
    exists jf,
      (j <= jf < n)%nat
      /\ while_loop fuel encode [m0] model_name max_tokens truncate
                    (cand j) (token_formula encode (cand j))
         = Some (Ok (cand jf))
      /\ (forall j', (j' < jf)%nat -> token_formula encode (cand j') > max_tokens)
      /\ (token_formula encode (cand jf) <= max_tokens \/ jf = (n - 1)%nat).
Proof.
  induction fuel as [|fuel IH]; intros j Hj Hfuel Hover; [lia|].
  cbn [while_loop].
  destruct (token_formula encode (cand j) >? max_tokens) eqn:Hcmp.
  - apply Z.gtb_lt in Hcmp.
    assert (Hover' : forall j', (j' < S j)%nat ->
                       token_formula encode (cand j') > max_tokens).
    { intros j' Hj'. destruct (decide (j' = j)) as [->|Hne]; [lia|].
      apply Hover. lia. }
    destruct (decide (n - j = 1)%nat) as [H1|H1];
      [|destruct (decide (n - j = 2)%nat) as [H2|H2]].
    + rewrite loop_body_single by (rewrite cand_length; lia).
      exists j. split; [lia|]. split; [reflexivity|]. split; [exact Hover|].
      right. lia.
    + rewrite loop_body_pair by (rewrite cand_length; lia).
      rewrite cand_pair by exact H2.
      exists (S j). split; [lia|]. split; [reflexivity|]. split; [exact Hover'|].
      right. lia.
    + rewrite cand_step by lia.
      rewrite (count_tokens_supported _ _ _ marker).
      destruct (IH (S j)) as (jf & Hjf & Hrun & Hov & Hend); [lia|lia|exact Hover'|].
      exists jf. split; [lia|]. split; [exact Hrun|]. split; assumption.
  - exists j. split; [lia|]. split; [reflexivity|]. split; [exact Hover|]. left.
    destruct (Z.gtb_spec (token_formula encode (cand j)) max_tokens); [discriminate|lia].
Qed.

End Candidates.

Lemma drop_oldest_length m0 rest j :
  (j < S (length rest))%nat -> length (drop_oldest m0 rest j) = (S (length rest) - j)%nat.
Proof. intros Hj. unfold drop_oldest. simpl. rewrite length_drop. lia. Qed.

Lemma drop_oldest_step m0 rest j :
  (3 <= S (length rest) - j)%nat ->
  loop_body [m0] (drop_oldest m0 rest j) "first"
  = Continue (drop_oldest m0 rest (S j)).
Proof.
  intros Hj. unfold drop_oldest.
  assert (Hd : drop (S j) rest = drop 1 (drop j rest)).
  { rewrite drop_drop. f_equal. lia. }
  rewrite Hd.
  assert (Hl : (2 <= length (drop j rest))%nat) by (rewrite length_drop; lia).
  destruct (drop j rest) as [|m1 [|m2 r]]; simpl in Hl; try lia.
  reflexivity.
Qed.

Lemma drop_oldest_pair m0 rest j :
  (S (length rest) - j = 2)%nat ->
  slice_but_last (drop_oldest m0 rest j) = drop_oldest m0 rest (S j).
Proof.
  intros Hj. unfold drop_oldest.
  assert (Hd : drop (S j) rest = drop 1 (drop j rest)).
  { rewrite drop_drop. f_equal. lia. }
  rewrite Hd.
  assert (Hl : length (drop j rest) = 1%nat) by (rewrite length_drop; lia).
  destruct (drop j rest) as [|m1 [|m2 r]]; simpl in Hl; try lia.
  reflexivity.
Qed.

Lemma drop_newest_length (messages : list message) j :
  (j < length messages)%nat ->
  length (drop_newest messages j) = (length messages - j)%nat.
Proof. intros Hj. unfold drop_newest. rewrite length_take. lia. Qed.

Lemma take_head_drop_one (m0 : message) rest k :
  (1 <= k)%nat -> [m0] ++ drop 1 (take k (m0 :: rest)) = take k (m0 :: rest).
Proof. intros Hk. destruct k as [|k]; [lia|]. reflexivity. Qed.

Lemma drop_newest_step m0 rest truncate j :
  truncate <> "first" ->
  (3 <= length (m0 :: rest) - j)%nat ->
  loop_body [m0] (drop_newest (m0 :: rest) j) truncate
  = Continue (drop_newest (m0 :: rest) (S j)).
Proof.
  intros Hmode Hj. unfold loop_body.
  rewrite drop_newest_length by lia.
  destruct (Nat.eqb_spec (length (m0 :: rest) - j) 2) as [?|_]; [lia|].
  destruct (Nat.eqb_spec (length (m0 :: rest) - j) 1) as [?|_]; [lia|].
  destruct (decide (truncate = "first")) as [?|_]; [contradiction|].
  f_equal. unfold slice_inner. rewrite drop_newest_length by lia.
  unfold drop_newest. rewrite take_take.
  replace ((length (m0 :: rest) - j - 1) `min` (length (m0 :: rest) - j))%nat
    with (length (m0 :: rest) - S j)%nat by lia.
  apply take_head_drop_one. lia.
Qed.

Lemma drop_newest_pair (messages : list message) j :
  (length messages - j = 2)%nat ->
  slice_but_last (drop_newest messages j) = drop_newest messages (S j).
Proof.
  intros Hj. unfold slice_but_last. rewrite drop_newest_length by lia.
  unfold drop_newest. rewrite take_take. f_equal. lia.
Qed.

Lemma rounds_length truncate m0 rest j :
  (j <= length rest)%nat ->
  length (rounds truncate m0 rest j) = (S (length rest) - j)%nat.
Proof.
  intros Hj. unfold rounds. destruct (decide (truncate = "first")).
  - apply drop_oldest_length. lia.
  - rewrite drop_newest_length; simpl; lia.
Qed.

Lemma rounds_start truncate m0 rest : rounds truncate m0 rest 0 = m0 :: rest.
Proof.
  unfold rounds, drop_oldest, drop_newest.
  destruct (decide (truncate = "first")); [reflexivity|].
  rewrite Nat.sub_0_r. apply firstn_all.
Qed.

Lemma rounds_end truncate m0 rest : rounds truncate m0 rest (length rest) = [m0].
Proof.
  unfold rounds, drop_oldest, drop_newest.
  destruct (decide (truncate = "first")).
  - rewrite drop_all. reflexivity.
  - replace (length (m0 :: rest) - length rest)%nat with 1%nat by (simpl; lia).
    reflexivity.
Qed.

Lemma truncate_rounds encoding_for_model encode m0 rest model_name max_tokens truncate :
  supported encoding_for_model model_name encode ->
  exists jf,
    (jf <= length rest)%nat
    /\ (forall fuel, (S (length rest) <= fuel)%nat ->
          truncate_msgs_for_token_limit encoding_for_model fuel (m0 :: rest)
            model_name max_tokens truncate
          = Some (Ok (rounds truncate m0 rest jf)))
    /\ (forall j', (j' < jf)%nat ->
          token_formula encode (rounds truncate m0 rest j') > max_tokens)
    /\ (token_formula encode (rounds truncate m0 rest jf) <= max_tokens
        \/ jf = length rest).
Proof.
  intros Hsup.
  destruct (while_loop_candidates m0 (rounds truncate m0 rest) (S (length rest))
              encode model_name max_tokens truncate (proj2 Hsup))
    with (fuel := S (length rest)) (j := 0%nat)
    as (jf & Hjf & Hrun & Hover & Hend).
  - intros j Hj. apply rounds_length. lia.
  - intros j Hj. unfold rounds. destruct (decide (truncate = "first")) as [->|Hne].
    + apply drop_oldest_step. exact Hj.
    + apply drop_newest_step; [exact Hne|exact Hj].
  - intros j Hj. unfold rounds. destruct (decide (truncate = "first")).
    + apply drop_oldest_pair. exact Hj.
    + apply drop_newest_pair. exact Hj.
  - lia.
  - lia.
  - intros j' Hj'. lia.
  - exists jf. split; [lia|]. split; [|split; [exact Hover|]].
    + intros fuel Hfuel. rewrite (truncate_unfold _ _ _ _ _ _ _ Hsup).
      simpl take. rewrite rounds_start in Hrun.
      eapply while_loop_fuel_mono; [exact Hrun|exact Hfuel].
    + destruct Hend as [Hfit|Hlast]; [left; exact Hfit|right; lia].
Qed.

Lemma while_loop_single fuel encode sys_priming model_name max_tokens truncate
    (m0 : message) n_tokens :
  while_loop (S fuel) encode sys_priming model_name max_tokens truncate
             [m0] n_tokens = Some (Ok [m0]).
Proof.
  cbn [while_loop]. destruct (n_tokens >? max_tokens); reflexivity.
Qed.

Lemma exceeds_formula encode model_name max_tokens (messages : list message) :
  contains chat_marker model_name = true ->
  token_formula encode messages > max_tokens ->
  exceeds encode model_name max_tokens messages.
Proof.
  intros Hm Hgt. exists (token_formula encode messages).
  split; [apply count_tokens_supported, Hm|exact Hgt].
Qed.

Lemma fits_formula encode model_name max_tokens (messages : list message) :
  contains chat_marker model_name = true ->
  token_formula encode messages <= max_tokens ->
  fits encode model_name max_tokens messages.
Proof.
  intros Hm Hle. exists (token_formula encode messages).
  split; [apply count_tokens_supported, Hm|exact Hle].
Qed.

(** ** Properties *)

(** X1. For a model name with the chat-family marker the count is at
    least 2 plus 3 for every message, whatever the encoder and the
    fields. *)
Theorem count_tokens_lower_bound (messages : list message) encode model_name :
  contains chat_marker model_name = true ->
  exists n,
    count_tokens messages encode model_name = Ok n
    /\ 3 * Z.of_nat (length messages) + 2 <= n.
Proof.
  intros Hm. exists (token_formula encode messages).
  split; [apply count_tokens_supported, Hm|apply token_formula_lower].
Qed.

Lemma count_tokens_lower_bound_witness :
  exists n,
    count_tokens [msg_system_a; msg_user "hello"] char_encoder "gpt-3.5-turbo-0301"
    = Ok n
    /\ 3 * 2 + 2 <= n.
Proof.
  apply (count_tokens_lower_bound [msg_system_a; msg_user "hello"] char_encoder
           "gpt-3.5-turbo-0301").
  reflexivity.
Defined.

(** X2. The count of two sequences put end to end is the sum of their
    counts less 2 (the reply priming is counted once). *)
Theorem count_tokens_app (a b : list message) encode model_name n_a n_b :
  count_tokens a encode model_name = Ok n_a ->
  count_tokens b encode model_name = Ok n_b ->
  count_tokens (a ++ b) encode model_name = Ok (n_a + n_b - 2).
Proof.
  intros Ha Hb.
  destruct (contains chat_marker model_name) eqn:Hm.
  - rewrite (count_tokens_supported _ _ _ Hm) in Ha.
    rewrite (count_tokens_supported _ _ _ Hm) in Hb.
    rewrite (count_tokens_supported _ _ _ Hm).
    injection Ha as <-. injection Hb as <-.
    rewrite token_formula_app. reflexivity.
  - unfold count_tokens in Ha. rewrite Hm in Ha. discriminate.
Qed.

Lemma count_tokens_app_witness :
  count_tokens ([msg_system_a] ++ [msg_user "hello"]) char_encoder
               "gpt-3.5-turbo-0301"
  = Ok (13 + 15 - 2).
Proof.
  apply (count_tokens_app [msg_system_a] [msg_user "hello"] char_encoder
           "gpt-3.5-turbo-0301" 13 15).
  - vm_compute. reflexivity.
  - vm_compute. reflexivity.
Defined.

(** X3. The count does not depend on the order of the messages. *)
Theorem count_tokens_permutation (a b : list message) encode model_name :
  a ≡ₚ b ->
  count_tokens a encode model_name = count_tokens b encode model_name.
Proof.
  intros Hp. unfold count_tokens.
  destruct (contains chat_marker model_name); [|reflexivity].
  simpl. rewrite !count_messages_formula.
  pose proof (token_formula_perm encode a b Hp) as Hf.
  unfold token_formula in Hf. f_equal. lia.
Qed.

Lemma count_tokens_permutation_witness :
  count_tokens [msg_system_a; msg_user "hello"] char_encoder "gpt-3.5-turbo-0301"
  = count_tokens [msg_user "hello"; msg_system_a] char_encoder "gpt-3.5-turbo-0301".
Proof.
  apply (count_tokens_permutation [msg_system_a; msg_user "hello"]
           [msg_user "hello"; msg_system_a] char_encoder "gpt-3.5-turbo-0301").
  apply perm_swap.
Defined.

(** X4. For a model name without the chat-family marker [count_tokens]
    raises [NotImplementedError] with the model name in the message, and
    the truncator never returns a sequence: it raises [KeyError] when the
    tokenizer does not know the model and that [NotImplementedError]
    otherwise, before its loop starts. *)
Theorem unsupported_model_raises encoding_for_model encode (messages : list message)
    model_name max_tokens truncate fuel :
  contains chat_marker model_name = false ->
  count_tokens messages encode model_name
  = Err (NotImplementedError
           ("_count_tokens() is not presently implemented for model "
              +:+ model_name +:+ "."))
  /\ truncate_msgs_for_token_limit encoding_for_model fuel messages model_name
       max_tokens truncate
     = Some (Err (match encoding_for_model model_name with
                  | None => KeyError model_name
                  | Some _ =>
                    NotImplementedError
                      ("_count_tokens() is not presently implemented for model "
                         +:+ model_name +:+ ".")
                  end)).
Proof.
  intros Hm. split.
  - unfold count_tokens. rewrite Hm. reflexivity.
  - unfold truncate_msgs_for_token_limit, count_tokens.
    destruct (encoding_for_model model_name); [rewrite Hm|]; reflexivity.
Qed.

Lemma unsupported_model_raises_witness :
  truncate_msgs_for_token_limit stub_encoding_for_model 0 [msg_system_a]
    "llama-2" 100 "first"
  = Some (Err (NotImplementedError
                 "_count_tokens() is not presently implemented for model llama-2.")).
Proof.
  apply (proj2 (unsupported_model_raises stub_encoding_for_model char_encoder
                  [msg_system_a] "llama-2" 100 "first" 0 eq_refl)).
Defined.

(** X5. With [truncate == 'first'] the truncator returns the first
    message followed by the input's other messages without the [j]
    oldest of them, and [j] is the least such number of rounds: every
    sequence the loop held before was over the maximum. *)
Theorem truncate_first_drops_oldest encoding_for_model encode (m0 : message)
    (rest : list message) model_name max_tokens :
  supported encoding_for_model model_name encode ->
  exists j,
    (j <= length rest)%nat
    /\ (forall fuel, (S (length rest) <= fuel)%nat ->
          truncate_msgs_for_token_limit encoding_for_model fuel (m0 :: rest)
            model_name max_tokens "first"
          = Some (Ok (m0 :: drop j rest)))
    /\ (forall j', (j' < j)%nat ->
          exceeds encode model_name max_tokens (m0 :: drop j' rest)).
Proof.
  intros Hsup.
  destruct (truncate_rounds encoding_for_model encode m0 rest model_name
              max_tokens "first" Hsup) as (j & Hj & Hrun & Hover & _).
  exists j. split; [exact Hj|]. split; [exact Hrun|].
  intros j' Hj'. apply exceeds_formula; [exact (proj2 Hsup)|].
  apply (Hover j' Hj').
Qed.

Lemma truncate_first_drops_oldest_witness :
  exists j,
    (j <= 2)%nat
    /\ (forall fuel, (3 <= fuel)%nat ->
          truncate_msgs_for_token_limit stub_encoding_for_model fuel
            [msg_system_a; msg_user "hello"; msg_user "bye"]
            "gpt-3.5-turbo-0301" 30 "first"
          = Some (Ok (msg_system_a :: drop j [msg_user "hello"; msg_user "bye"])))
    /\ (forall j', (j' < j)%nat ->
          exceeds char_encoder "gpt-3.5-turbo-0301" 30
                  (msg_system_a :: drop j' [msg_user "hello"; msg_user "bye"])).
Proof.
  apply (truncate_first_drops_oldest stub_encoding_for_model char_encoder
           msg_system_a [msg_user "hello"; msg_user "bye"]
           "gpt-3.5-turbo-0301" 30).
  split; reflexivity.
Defined.

(** X6. With any other value of [truncate] the truncator returns a
    non-empty prefix of the input, and every longer prefix is over the
    maximum. *)
Theorem truncate_last_drops_newest encoding_for_model encode
    (messages : list message) model_name max_tokens truncate :
  supported encoding_for_model model_name encode ->
  truncate <> "first" ->
  (1 <= length messages)%nat ->
  exists k,
    (1 <= k <= length messages)%nat
    /\ (forall fuel, (length messages <= fuel)%nat ->
          truncate_msgs_for_token_limit encoding_for_model fuel messages
            model_name max_tokens truncate
          = Some (Ok (take k messages)))
    /\ (forall k', (k < k' <= length messages)%nat ->
          exceeds encode model_name max_tokens (take k' messages)).
Proof.
  intros Hsup Hmode Hlen. destruct messages as [|m0 rest]; [simpl in Hlen; lia|].
  destruct (truncate_rounds encoding_for_model encode m0 rest model_name
              max_tokens truncate Hsup) as (j & Hj & Hrun & Hover & _).
  unfold rounds in Hrun, Hover.
  destruct (decide (truncate = "first")) as [?|_]; [contradiction|].
  unfold drop_newest in Hrun, Hover.
  exists (length (m0 :: rest) - j)%nat. simpl length in *.
  split; [lia|]. split; [exact Hrun|].
  intros k' Hk'. apply exceeds_formula; [exact (proj2 Hsup)|].
  replace k' with (S (length rest) - (S (length rest) - k'))%nat by lia.
  apply Hover. lia.
Qed.

Lemma truncate_last_drops_newest_witness :
  exists k,
    (1 <= k <= 3)%nat
    /\ (forall fuel, (3 <= fuel)%nat ->
          truncate_msgs_for_token_limit stub_encoding_for_model fuel
            [msg_system_a; msg_user "hello"; msg_user "bye"]
            "gpt-3.5-turbo-0301" 30 "last"
          = Some (Ok (take k [msg_system_a; msg_user "hello"; msg_user "bye"])))
    /\ (forall k', (k < k' <= 3)%nat ->
          exceeds char_encoder "gpt-3.5-turbo-0301" 30
                  (take k' [msg_system_a; msg_user "hello"; msg_user "bye"])).
Proof.
  apply (truncate_last_drops_newest stub_encoding_for_model char_encoder
           [msg_system_a; msg_user "hello"; msg_user "bye"]
           "gpt-3.5-turbo-0301" 30 "last").
  - split; reflexivity.
  - discriminate.
  - simpl. lia.
Defined.

(** X7. The sequence returned for a non-empty input is within the
    maximum, or else it is the first message alone: the truncator does
    not promise a result within the maximum. *)
Theorem truncate_fits_or_priming_only encoding_for_model encode
    (messages : list message) model_name max_tokens truncate :
  supported encoding_for_model model_name encode ->
  (1 <= length messages)%nat ->
  exists out,
    (forall fuel, (length messages <= fuel)%nat ->
       truncate_msgs_for_token_limit encoding_for_model fuel messages
         model_name max_tokens truncate = Some (Ok out))
    /\ (fits encode model_name max_tokens out \/ out = take 1 messages).
Proof.
  intros Hsup Hlen. destruct messages as [|m0 rest]; [simpl in Hlen; lia|].
  destruct (truncate_rounds encoding_for_model encode m0 rest model_name
              max_tokens truncate Hsup) as (j & Hj & Hrun & _ & Hend).
  exists (rounds truncate m0 rest j). split; [exact Hrun|].
  destruct Hend as [Hfit| ->].
  - left. apply fits_formula; [exact (proj2 Hsup)|exact Hfit].
  - right. apply rounds_end.
Qed.

Lemma truncate_fits_or_priming_only_witness :
  exists out,
    (forall fuel, (3 <= fuel)%nat ->
       truncate_msgs_for_token_limit stub_encoding_for_model fuel
         [msg_system_a; msg_user "hello"; msg_user "bye"]
         "gpt-3.5-turbo-0301" 30 "first" = Some (Ok out))
    /\ (fits char_encoder "gpt-3.5-turbo-0301" 30 out
        \/ out = [msg_system_a]).
Proof.
  apply (truncate_fits_or_priming_only stub_encoding_for_model char_encoder
           [msg_system_a; msg_user "hello"; msg_user "bye"]
           "gpt-3.5-turbo-0301" 30 "first").
  - split; reflexivity.
  - simpl. lia.
Defined.

(** X8. Truncating twice is truncating once: on the sequence it returned
    for a non-empty input the truncator returns that sequence again. *)
Theorem truncate_idempotent encoding_for_model encode
    (messages : list message) model_name max_tokens truncate :
  supported encoding_for_model model_name encode ->
  (1 <= length messages)%nat ->
  exists out,
    (forall fuel, (length messages <= fuel)%nat ->
       truncate_msgs_for_token_limit encoding_for_model fuel messages
         model_name max_tokens truncate = Some (Ok out))
    /\ (forall fuel,
          truncate_msgs_for_token_limit encoding_for_model (S fuel) out
            model_name max_tokens truncate = Some (Ok out)).
Proof.
  intros Hsup Hlen. destruct messages as [|m0 rest]; [simpl in Hlen; lia|].
  destruct (truncate_rounds encoding_for_model encode m0 rest model_name
              max_tokens truncate Hsup) as (j & Hj & Hrun & _ & Hend).
  exists (rounds truncate m0 rest j). split; [exact Hrun|].
  intros fuel. rewrite (truncate_unfold _ _ _ _ _ _ _ Hsup).
  destruct Hend as [Hfit| ->].
  - apply while_loop_within_budget, Hfit.
  - rewrite rounds_end. apply while_loop_single.
Qed.

Lemma truncate_idempotent_witness :
  exists out,
    (forall fuel, (3 <= fuel)%nat ->
       truncate_msgs_for_token_limit stub_encoding_for_model fuel
         [msg_system_a; msg_user "hello"; msg_user "bye"]
         "gpt-3.5-turbo-0301" 30 "first" = Some (Ok out))
    /\ (forall fuel,
          truncate_msgs_for_token_limit stub_encoding_for_model (S fuel) out
            "gpt-3.5-turbo-0301" 30 "first" = Some (Ok out)).
Proof.
  apply (truncate_idempotent stub_encoding_for_model char_encoder
           [msg_system_a; msg_user "hello"; msg_user "bye"]
           "gpt-3.5-turbo-0301" 30 "first").
  - split; reflexivity.
  - simpl. lia.
Defined.

(** X9. With a maximum below 5 nothing but the first message is
    returned: no non-empty sequence counts fewer than 5 tokens. *)
Theorem truncate_tiny_budget encoding_for_model encode
    (messages : list message) model_name max_tokens truncate fuel :
  supported encoding_for_model model_name encode ->
  (1 <= length messages)%nat ->
  max_tokens < 5 ->
  (length messages <= fuel)%nat ->
  truncate_msgs_for_token_limit encoding_for_model fuel messages
    model_name max_tokens truncate = Some (Ok (take 1 messages)).
Proof.
  intros Hsup Hlen Hmax Hfuel.
  destruct messages as [|m0 rest]; [simpl in Hlen; lia|].
  destruct (truncate_rounds encoding_for_model encode m0 rest model_name
              max_tokens truncate Hsup) as (j & Hj & Hrun & _ & Hend).
  rewrite (Hrun fuel Hfuel). do 2 f_equal.
  destruct Hend as [Hfit| ->]; [|apply rounds_end].
  pose proof (token_formula_lower encode (rounds truncate m0 rest j)) as Hlow.
  rewrite rounds_length in Hlow by exact Hj. lia.
Qed.

Lemma truncate_tiny_budget_witness :
  truncate_msgs_for_token_limit stub_encoding_for_model 3
    [msg_system_a; msg_user "hello"; msg_user "bye"]
    "gpt-3.5-turbo-0301" 4 "last"
  = Some (Ok [msg_system_a]).
Proof.
  apply (truncate_tiny_budget stub_encoding_for_model char_encoder
           [msg_system_a; msg_user "hello"; msg_user "bye"]
           "gpt-3.5-turbo-0301" 4 "last" 3).
  - split; reflexivity.
  - simpl. lia.
  - lia.
  - simpl. lia.
Defined.

(** X18. A field added to a message under a key it did not have raises
    the count by the encoded length of its value, less 1 when the key is
    [name]. *)
Theorem count_tokens_new_field (m : message) (rest : list message) encode
    model_name (key value : string) n :
  m !! key = None ->
  count_tokens (m :: rest) encode model_name = Ok n ->
  count_tokens (<[key := value]> m :: rest) encode model_name
  = Ok (n + Z.of_nat (length (encode value))
        - (if decide (key = "name") then 1 else 0)).
Proof.
  intros Hkey Hcount. unfold count_tokens in *.
  destruct (contains chat_marker model_name); [|discriminate].
  simpl in *. injection Hcount as <-.
  rewrite !count_messages_formula. unfold count_message.
  rewrite !count_fields_formula.
  assert (Hfields : field_tokens encode (<[key := value]> m)
                    = Z.of_nat (length (encode value)) + field_tokens encode m).
  { unfold field_tokens.
    pose proof (map_to_list_insert m key value Hkey) as Hp.
    assert (Hsum : forall l1 l2 : list (string * string), l1 ≡ₚ l2 ->
              foldr Z.add 0 ((fun kv => Z.of_nat (length (encode kv.2))) <$> l1)
              = foldr Z.add 0 ((fun kv => Z.of_nat (length (encode kv.2))) <$> l2)).
    { intros l1 l2 Hl. induction Hl; rewrite ?fmap_cons; cbn [foldr]; lia. }
    rewrite (Hsum _ _ Hp), fmap_cons. reflexivity. }
  assert (Hname : name_discount (<[key := value]> m)
                  = name_discount m + (if decide (key = "name") then 1 else 0)).
  { unfold name_discount. destruct (decide (key = "name")) as [->|Hne].
    - rewrite lookup_insert_eq, Hkey. simpl. reflexivity.
    - rewrite lookup_insert_ne by done. lia. }
  rewrite Hfields, Hname. f_equal. lia.
Qed.

Lemma count_tokens_new_field_witness :
  count_tokens [<["name" := "bob"]> (msg_user "hello")] char_encoder
               "gpt-3.5-turbo-0301"
  = Ok (15 + 3 - 1).
Proof.
  apply (count_tokens_new_field (msg_user "hello") [] char_encoder
           "gpt-3.5-turbo-0301" "name" "bob" 15).
  - vm_compute. reflexivity.
  - vm_compute. reflexivity.
Defined.

End TokensMore.

(** * Further properties of the retry wrapper *)

Module BackoffMore.
Import Backoff BackoffFacts.
Local Open Scope R_scope.

(** ** Every run of the loop *)

Section Runs.

Context {fp : FloatOps}.
Context {St V : Type}.
Variable func : St -> result exception V * St.
Variable random : nat -> R.
Variable pol : policy.

Lemma retry_loop_trace :
  forall fuel max_retries num_retries delay s w r s' w',
    (num_retries <= max_retries)%Z ->
    retry_loop func random pol fuel max_retries num_retries delay s w
    = Some (r, s', w') ->
    exists c,
      calls w' = (calls w + S c)%nat
      /\ sleeps w' = sleeps w ++ backoff_delays random pol c delay (draws w)
      /\ (Z.of_nat c <= max_retries - num_retries)%Z.
Proof.
  induction fuel as [|fuel IH];
    intros max_retries num_retries delay s w r s' w' Hnum Hrun; [discriminate|].
  cbn [retry_loop] in Hrun.
  assert (Hstop : forall x : result failure V * St * world,
            Some (x.1.1, x.1.2, called w) = Some (r, s', w') ->
            exists c,
              calls w' = (calls w + S c)%nat
              /\ sleeps w' = sleeps w ++ backoff_delays random pol c delay (draws w)
              /\ (Z.of_nat c <= max_retries - num_retries)%Z).
  { intros x Hx. injection Hx as _ _ <-. exists 0%nat. simpl.
    rewrite app_nil_r. split; [lia|]. split; [reflexivity|lia]. }
  destruct (func s) as [[v|e] s1].
  - apply (Hstop (Ok v, s1, w)). exact Hrun.
  - destruct (classify pol e).
    + destruct (rejected_message e) as [msg|raised].
      * apply (Hstop (Err (Exception msg), s1, w)). exact Hrun.
      * apply (Hstop (Err raised, s1, w)). exact Hrun.
    + destruct (num_retries + 1 >? max_retries)%Z eqn:Hcmp.
      * apply (Hstop (Err (Exception (exhausted_message max_retries)), s1, w)).
        exact Hrun.
      * change (draws (called w)) with (draws w) in Hrun.
        set (delay1 := next_delay pol delay (random (draws w))) in Hrun.
        destruct (Rlt_dec delay1 0).
        -- injection Hrun as _ _ <-. exists 0%nat. simpl.
           rewrite app_nil_r. split; [lia|]. split; [reflexivity|lia].
        -- assert (Hle : (num_retries + 1 <= max_retries)%Z).
           { destruct (Z.gtb_spec (num_retries + 1) max_retries);
               [discriminate|lia]. }
           destruct (IH _ _ _ _ _ _ _ _ Hle Hrun) as (c & Hc & Hs & Hb).
           exists (S c). simpl in Hc, Hs |- *. fold delay1.
           split; [lia|]. split; [|lia].
           rewrite Hs, <- app_assoc. reflexivity.
    + apply (Hstop (Err (Exception (general_message e)), s1, w)). exact Hrun.
    + apply (Hstop (Err (Reraised e), s1, w)). exact Hrun.
Qed.

Lemma retry_loop_ends :
  forall fuel max_retries num_retries delay s w,
    (num_retries <= max_retries)%Z ->
    (Z.to_nat (max_retries - num_retries) < fuel)%nat ->
    exists res,
      retry_loop func random pol fuel max_retries num_retries delay s w
      = Some res.
Proof.
  induction fuel as [|fuel IH];
    intros max_retries num_retries delay s w Hnum Hfuel; [lia|].
  cbn [retry_loop].
  destruct (func s) as [[v|e] s1]; [eauto|].
  destruct (classify pol e); eauto.
  { destruct (rejected_message e); eauto. }
  destruct (num_retries + 1 >? max_retries)%Z eqn:Hcmp; [eauto|].
  destruct (Rlt_dec _ 0); [eauto|].
  assert (Hle : (num_retries + 1 <= max_retries)%Z).
  { destruct (Z.gtb_spec (num_retries + 1) max_retries); [discriminate|lia]. }
  apply IH; [exact Hle|lia].
Qed.

Lemma wrapper_trace fuel s max_retries r s' w :
  compute_max_retries pol = Ok max_retries ->
  wrapper func random pol fuel s = Some (r, s', w) ->
  exists c,
    calls w = S c
    /\ sleeps w = backoff_delays random pol c (initial_delay pol) 0
    /\ (Z.of_nat c <= max_retries)%Z.
Proof.
  intros Hmax Hrun. unfold wrapper in Hrun. rewrite Hmax in Hrun.
  pose proof (max_retries_at_least_one pol max_retries Hmax) as Hone.
  assert (Hzero : (0 <= max_retries)%Z) by lia.
  destruct (retry_loop_trace _ _ _ _ _ _ _ _ _ Hzero Hrun)
    as (c & Hc & Hs & Hb).
  exists c. simpl in Hc, Hs. split; [exact Hc|]. split; [exact Hs|lia].
Qed.

End Runs.

(** ** The delays *)

Section Delays.

Variable random : nat -> R.
Variable pol : policy.

Lemma next_delay_bounds delay r :
  0 < delay ->
  (1 <= exponential_base pol)%Z ->
  0 <= r < 1 ->
  IZR (exponential_base pol) * delay <= next_delay pol delay r
  /\ next_delay pol delay r < 2 * IZR (exponential_base pol) * delay.
Proof.
  intros Hd Hb [Hr0 Hr1]. unfold next_delay.
  assert (HB : 1 <= IZR (exponential_base pol)) by (apply IZR_le, Hb).
  set (B := IZR (exponential_base pol)) in *.
  assert (HP : 0 < B * delay) by (apply Rmult_lt_0_compat; lra).
  assert (HX0 : 0 <= B * delay * r) by (apply Rmult_le_pos; lra).
  assert (HX1 : 0 < B * delay * (1 - r)) by (apply Rmult_lt_0_compat; lra).
  replace (delay * (B * (1 + IZR (Z.b2z (jitter pol)) * r)))
    with (B * delay + IZR (Z.b2z (jitter pol)) * (B * delay * r)) by ring.
  destruct (jitter pol); simpl; lra.
Qed.

Lemma backoff_delays_head k delay i :
  (0 < k)%nat ->
  backoff_delays random pol k delay i !! 0%nat
  = Some (next_delay pol delay (random i)).
Proof. intros Hk. destruct k as [|k]; [lia|reflexivity]. Qed.

Lemma backoff_delays_succ k :
  forall delay i j d d',
    backoff_delays random pol k delay i !! j = Some d ->
    backoff_delays random pol k delay i !! S j = Some d' ->
    d' = next_delay pol d (random (i + S j)).
Proof.
  induction k as [|k IH]; intros delay i j d d' Hj HSj; [discriminate|].
  cbn [backoff_delays] in Hj, HSj. destruct j as [|j].
  - simpl in Hj, HSj. injection Hj as <-.
    destruct k as [|k]; [discriminate|].
    simpl in HSj. injection HSj as <-. do 2 f_equal. lia.
  - simpl in Hj, HSj.
    rewrite (IH _ _ _ _ _ Hj HSj). do 2 f_equal. lia.
Qed.

Lemma backoff_delays_positive k :
  (1 <= exponential_base pol)%Z ->
  (forall i, 0 <= random i < 1) ->
  forall delay i j d,
    0 < delay ->
    backoff_delays random pol k delay i !! j = Some d ->
    0 < d.
Proof.
  intros Hb Hr. induction k as [|k IH]; intros delay i j d Hd Hj; [discriminate|].
  cbn [backoff_delays] in Hj.
  pose proof (next_delay_bounds delay (random i) Hd Hb (Hr i)) as [Hlo _].
  assert (HB : 1 <= IZR (exponential_base pol)) by (apply IZR_le, Hb).
  assert (Hpos : 0 < next_delay pol delay (random i)) by nra.
  destruct j as [|j].
  - simpl in Hj. injection Hj as <-. exact Hpos.
  - simpl in Hj. apply (IH _ _ _ _ Hpos Hj).
Qed.

Lemma total_sleep_no_jitter k :
  jitter pol = false ->
  forall delay i,
    (IZR (exponential_base pol) - 1)
    * total_sleep (backoff_delays random pol k delay i)
    = delay * IZR (exponential_base pol) * (IZR (exponential_base pol) ^ k - 1).
Proof.
  intros Hj. induction k as [|k IH]; intros delay i.
  - simpl. ring.
  - cbn [backoff_delays total_sleep foldr].
    fold (total_sleep (backoff_delays random pol k
                         (next_delay pol delay (random i)) (S i))).
    rewrite Rmult_plus_distr_l, IH.
    unfold next_delay. rewrite Hj. simpl. ring.
Qed.

End Delays.

(** ** The retry budget *)

Lemma py_round_near x : - (1 / 2) <= IZR (py_round x) - x <= 1 / 2.
Proof.
  unfold py_round. destruct (base_Int_part x) as [Hlo Hhi].
  destruct (Rlt_dec (x - IZR (Int_part x)) (1 / 2)); [lra|].
  destruct (Rlt_dec (1 / 2) (x - IZR (Int_part x))).
  - rewrite plus_IZR. lra.
  - destruct (Z.even (Int_part x)); [lra|]. rewrite plus_IZR. lra.
Qed.

Lemma ln_le_inv x y : 0 < x -> 0 < y -> ln x <= ln y -> x <= y.
Proof.
  intros Hx Hy Hln. destruct (Rle_lt_dec x y) as [Hle|Hlt]; [exact Hle|].
  pose proof (ln_increasing y x Hy Hlt). lra.
Qed.

Lemma value_error_falls_back pol hb :
  as_number (hour_budget pol) = Some hb ->
  initial_delay pol <> 0 ->
  hb * 3600 / initial_delay pol <= 0 ->
  compute_max_retries pol = Ok 10%Z.
Proof.
  intros Hnum Hd Hratio.
  destruct (exact_ratio pol hb Hnum Hd) as (x & Hx & Hr).
  unfold compute_max_retries, guarded_retries, budget_retries, budget_quotient.
  rewrite Hx, Hr. cbn [mbind result_bind].
  rewrite math_log_float_domain by exact Hratio. reflexivity.
Qed.

Lemma compute_max_retries_numeric pol hb :
  as_number (hour_budget pol) = Some hb ->
  0 < initial_delay pol ->
  0 < hb ->
  (2 <= exponential_base pol)%Z ->
  compute_max_retries pol
  = Ok (Z.max 1 (py_round (ln (hb * 3600 / initial_delay pol)
                           / ln (IZR (exponential_base pol))))).
Proof.
  intros Hnum Hd Hhb Hb.
  apply (guarded_retries_ok pol hb Hnum); [lra| |lia|lia].
  apply Rdiv_lt_0_compat; lra.
Qed.

(** ** Properties *)

Section Properties.

Context {fp : FloatOps}.
Context {St V : Type}.
Variable func : St -> result exception V * St.
Variable random : nat -> R.
Variable pol : policy.

(** X10. Whatever the wrapped function does, the wrapper ends: it calls
    the function at least once and at most [max_retries + 1] times, and
    sleeps once between two calls and at no other time. *)
Theorem wrapper_bounded (s : St) (max_retries : Z) (fuel : nat) :
  compute_max_retries pol = Ok max_retries ->
  (Z.to_nat max_retries < fuel)%nat ->
  exists r s' w,
    wrapper func random pol fuel s = Some (r, s', w)
    /\ (1 <= calls w)%nat
    /\ (Z.of_nat (calls w) <= max_retries + 1)%Z
    /\ calls w = S (length (sleeps w)).
Proof.
  intros Hmax Hfuel.
  pose proof (max_retries_at_least_one pol max_retries Hmax) as Hone.
  destruct (retry_loop_ends func random pol fuel max_retries 0%Z
              (initial_delay pol) s initial_world) as [[[r s'] w] Hrun].
  { lia. }
  { replace (max_retries - 0)%Z with max_retries by lia. exact Hfuel. }
  assert (Hw : wrapper func random pol fuel s = Some (r, s', w)).
  { unfold wrapper. rewrite Hmax. exact Hrun. }
  destruct (wrapper_trace func random pol fuel s max_retries r s' w Hmax Hw)
    as (c & Hc & Hs & Hb).
  exists r, s', w. split; [exact Hw|].
  rewrite Hc, Hs, length_backoff_delays. repeat split; lia.
Qed.

(** X11. In every run, with a positive initial delay, a base of at least
    1 and draws in [0, 1), each sleep is positive, the first lasts at
    least [exponential_base] times the initial delay and less than twice
    that, and each later one at least [exponential_base] times the one
    before it and less than twice that, whether jitter is on or off. *)
Theorem sleep_growth_bounds (s : St) (fuel : nat) (max_retries : Z)
    (r : result failure V) (s' : St) (w : world) :
  compute_max_retries pol = Ok max_retries ->
  0 < initial_delay pol ->
  (1 <= exponential_base pol)%Z ->
  (forall i, 0 <= random i < 1) ->
  wrapper func random pol fuel s = Some (r, s', w) ->
  (forall i d, sleeps w !! i = Some d -> 0 < d)
  /\ (forall d, sleeps w !! 0%nat = Some d ->
        IZR (exponential_base pol) * initial_delay pol <= d
        /\ d < 2 * IZR (exponential_base pol) * initial_delay pol)
  /\ (forall i d d',
        sleeps w !! i = Some d -> sleeps w !! S i = Some d' ->
        IZR (exponential_base pol) * d <= d'
        /\ d' < 2 * IZR (exponential_base pol) * d).
Proof.
  intros Hmax Hd Hb Hr Hrun.
  destruct (wrapper_trace func random pol fuel s max_retries r s' w Hmax Hrun)
    as (c & _ & Hs & _).
  rewrite Hs.
  assert (Hpos : forall i d,
            backoff_delays random pol c (initial_delay pol) 0 !! i = Some d ->
            0 < d).
  { intros i d Hi.
    apply (backoff_delays_positive random pol c Hb Hr _ _ _ _ Hd Hi). }
  split; [exact Hpos|]. split.
  - intros d H0.
    assert (Hc : (0 < c)%nat).
    { apply lookup_lt_Some in H0. rewrite length_backoff_delays in H0. exact H0. }
    rewrite (backoff_delays_head random pol c _ _ Hc) in H0. injection H0 as <-.
    apply next_delay_bounds; auto.
  - intros i d d' Hi HSi.
    rewrite (backoff_delays_succ random pol c _ _ _ _ _ Hi HSi).
    apply next_delay_bounds; eauto.
Qed.

(** X12. In every run with jitter off the time slept in all is the
    geometric sum of the delays: [(base - 1) * total] is
    [initial_delay * base * (base ^ sleeps - 1)]. *)
Theorem total_sleep_geometric (s : St) (fuel : nat) (max_retries : Z)
    (r : result failure V) (s' : St) (w : world) :
  compute_max_retries pol = Ok max_retries ->
  jitter pol = false ->
  wrapper func random pol fuel s = Some (r, s', w) ->
  (IZR (exponential_base pol) - 1) * total_sleep (sleeps w)
  = initial_delay pol * IZR (exponential_base pol)
    * (IZR (exponential_base pol) ^ length (sleeps w) - 1).
Proof.
  intros Hmax Hj Hrun.
  destruct (wrapper_trace func random pol fuel s max_retries r s' w Hmax Hrun)
    as (c & _ & Hs & _).
  rewrite Hs, length_backoff_delays. apply total_sleep_no_jitter, Hj.
Qed.

(** X15. With a negative initial delay and a positive base the first
    retry fails: after one call that raised an error of the wait class
    the wrapper raises the [ValueError] of [time.sleep], having slept
    not at all. *)
Theorem negative_delay_sleep_raises (s : St) (e : exception)
    (max_retries : Z) (fuel : nat) :
  compute_max_retries pol = Ok max_retries ->
  initial_delay pol < 0 ->
  (0 < exponential_base pol)%Z ->
  (forall i, 0 <= random i < 1) ->
  outcome_at func s 0 = Err e ->
  classify pol e = Transient ->
  wrapper func random pol (S fuel) s
  = Some (Err ValueError, snd (func s),
          {| calls := 1; sleeps := []; draws := 1 |}).
Proof.
  intros Hmax Hd Hb Hr Hout Hcls.
  pose proof (max_retries_at_least_one pol max_retries Hmax) as Hone.
  unfold outcome_at in Hout. simpl in Hout.
  unfold wrapper. rewrite Hmax. cbn [retry_loop].
  destruct (func s) as [r0 s1]. simpl in Hout |- *. subst r0. rewrite Hcls.
  replace (0 + 1 >? max_retries)%Z with false by lia.
  assert (Hneg : next_delay pol (initial_delay pol) (random 0) < 0).
  { unfold next_delay.
    assert (HB : 0 < IZR (exponential_base pol)) by (apply IZR_lt, Hb).
    destruct (Hr 0%nat) as [Hr0 _].
    assert (Hf : 0 < IZR (exponential_base pol)
                     * (1 + IZR (Z.b2z (jitter pol)) * random 0)).
    { apply Rmult_lt_0_compat; [exact HB|]. destruct (jitter pol); simpl; lra. }
    nra. }
  destruct (Rlt_dec _ 0) as [_|Hge]; [reflexivity|contradiction].
Qed.

(** X16. When, after [k <= max_retries] errors of the wait class, the
    function raises an [openai.OpenAIError] that is in neither tuple, the
    wrapper stops there and raises an exception whose message wraps
    [str(e)] and points to the documentation. *)
Theorem general_error_wrapped (s : St) (k : nat) (e : exception)
    (max_retries : Z) :
  compute_max_retries pol = Ok max_retries ->
  0 <= initial_delay pol ->
  (0 <= exponential_base pol)%Z ->
  (forall i, 0 <= random i < 1) ->
  (forall i, (i < k)%nat -> exists e',
      outcome_at func s i = Err e' /\ classify pol e' = Transient) ->
  outcome_at func s k = Err e ->
  classify pol e = Generic ->
  (Z.of_nat k <= max_retries)%Z ->
  exists s' w,
    (forall fuel, (k < fuel)%nat ->
       wrapper func random pol fuel s
       = Some (Err (Exception
                      ("General " +:+ exn_str e
                         +:+ " error raised by OpenAI. Please refer to `https://platform.openai.com/docs/guides/error-codes` for more information.")),
               s', w))
    /\ calls w = S k
    /\ length (sleeps w) = k.
Proof.
  intros Hmax Hd Hb Hr Hpre Hout Hcls Hle.
  destruct (retry_loop_transient func random pol Hb Hr k max_retries 0%Z
              (initial_delay pol) s initial_world Hpre ltac:(lia) Hd)
    as (w' & Hrun & Hc & Hs & _).
  unfold outcome_at in Hout.
  destruct (func (state_after func k s)) as [r0 s'] eqn:Hf. simpl in Hout. subst r0.
  simpl in Hc, Hs.
  exists s', (called w'). split; [|split].
  - intros fuel Hfuel. unfold wrapper. rewrite Hmax.
    replace fuel with (k + S (fuel - S k))%nat by lia.
    rewrite Hrun. cbn [retry_loop]. rewrite Hf, Hcls. reflexivity.
  - simpl. rewrite Hc. reflexivity.
  - simpl. rewrite Hs. apply length_backoff_delays.
Qed.

(** X17. When, after [k <= max_retries] errors of the wait class, the
    function raises an exception that is no [openai.OpenAIError] and in
    neither tuple, the wrapper raises that same exception. *)
Theorem other_error_propagates (s : St) (k : nat) (e : exception)
    (max_retries : Z) :
  compute_max_retries pol = Ok max_retries ->
  0 <= initial_delay pol ->
  (0 <= exponential_base pol)%Z ->
  (forall i, 0 <= random i < 1) ->
  (forall i, (i < k)%nat -> exists e',
      outcome_at func s i = Err e' /\ classify pol e' = Transient) ->
  outcome_at func s k = Err e ->
  classify pol e = Other ->
  (Z.of_nat k <= max_retries)%Z ->
  exists s' w,
    (forall fuel, (k < fuel)%nat ->
       wrapper func random pol fuel s = Some (Err (Reraised e), s', w))
    /\ calls w = S k
    /\ length (sleeps w) = k.
Proof.
  intros Hmax Hd Hb Hr Hpre Hout Hcls Hle.
  destruct (retry_loop_transient func random pol Hb Hr k max_retries 0%Z
              (initial_delay pol) s initial_world Hpre ltac:(lia) Hd)
    as (w' & Hrun & Hc & Hs & _).
  unfold outcome_at in Hout.
  destruct (func (state_after func k s)) as [r0 s'] eqn:Hf. simpl in Hout. subst r0.
  simpl in Hc, Hs.
  exists s', (called w'). split; [|split].
  - intros fuel Hfuel. unfold wrapper. rewrite Hmax.
    replace fuel with (k + S (fuel - S k))%nat by lia.
    rewrite Hrun. cbn [retry_loop]. rewrite Hf, Hcls. reflexivity.
  - simpl. rewrite Hc. reflexivity.
  - simpl. rewrite Hs. apply length_backoff_delays.
Qed.

End Properties.

(** X13. When the budget formula applies (numeric positive budget,
    positive initial delay, base at least 2) the delay reached after
    [max_retries] waits, [initial_delay * base ^ max_retries], is at
    least the whole budget of [hour_budget * 3600] seconds divided by
    the square root of the base; it is at most the budget times that
    square root when the budget is at least the initial delay times it.
    (Stated on squares, for arithmetic over the real numbers.) *)
Theorem longest_wait_near_budget (pol : policy) (hb : R) (n : Z) :
  as_number (hour_budget pol) = Some hb ->
  0 < initial_delay pol ->
  0 < hb ->
  (2 <= exponential_base pol)%Z ->
  compute_max_retries (fp := exact_floats) pol = Ok n ->
  let budget := hb * 3600 in
  let longest := initial_delay pol * IZR (exponential_base pol) ^ Z.to_nat n in
  budget * budget <= IZR (exponential_base pol) * (longest * longest)
  /\ (IZR (exponential_base pol) * (initial_delay pol * initial_delay pol)
      <= budget * budget ->
      longest * longest <= IZR (exponential_base pol) * (budget * budget)).
Proof.
  intros Hnum Hd Hhb Hb Hcomp budget longest.
  rewrite (compute_max_retries_numeric pol hb Hnum Hd Hhb Hb) in Hcomp.
  injection Hcomp as Hn.
  set (B := IZR (exponential_base pol)) in *.
  set (ratio := hb * 3600 / initial_delay pol) in *.
  set (q := ln ratio / ln B) in *.
  assert (HB : 2 <= B) by (apply IZR_le, Hb).
  assert (HL : 0 < ln B).
  { rewrite <- ln_1. apply ln_increasing; lra. }
  assert (Hratio : 0 < ratio) by (apply Rdiv_lt_0_compat; lra).
  assert (Hq : q * ln B = ln ratio) by (unfold q; field; lra).
  pose proof (py_round_near q) as [Hnear_lo Hnear_hi].
  assert (Hone : (1 <= n)%Z) by lia.
  set (P := B ^ Z.to_nat n).
  assert (HP : 0 < P) by (apply pow_lt; lra).
  assert (HlnP : ln P = IZR n * ln B).
  { unfold P. rewrite ln_pow by lra. rewrite INR_IZR_INZ, Z2Nat.id by lia.
    reflexivity. }
  assert (Hbudget : budget = ratio * initial_delay pol).
  { unfold budget, ratio. field. lra. }
  assert (Hid2 : 0 <= initial_delay pol * initial_delay pol) by nra.
  split.
  - assert (Hge : IZR (py_round q) <= IZR n) by (apply IZR_le; lia).
    assert (Hln : ln (ratio * ratio) <= ln (B * (P * P))).
    { rewrite !ln_mult by nra. rewrite HlnP, <- Hq.
      assert (0 <= (IZR n - q + 1 / 2) * ln B) by (apply Rmult_le_pos; lra).
      lra. }
    apply ln_le_inv in Hln; [|nra|apply Rmult_lt_0_compat; nra].
    replace (budget * budget)
      with (initial_delay pol * initial_delay pol * (ratio * ratio))
      by (rewrite Hbudget; ring).
    replace (B * (longest * longest))
      with (initial_delay pol * initial_delay pol * (B * (P * P)))
      by (unfold longest; fold B; fold P; ring).
    apply Rmult_le_compat_l; assumption.
  - intros Hlarge.
    destruct (Z_lt_le_dec (py_round q) 1) as [Hsmall|Hbig].
    + assert (Hn1 : n = 1%Z) by lia.
      assert (HP1 : P = B) by (unfold P; rewrite Hn1; simpl; ring).
      replace (longest * longest)
        with (B * (B * (initial_delay pol * initial_delay pol)))
        by (unfold longest; fold B; fold P; rewrite HP1; ring).
      apply Rmult_le_compat_l; [lra|exact Hlarge].
    + assert (Hneq : IZR n = IZR (py_round q)) by (f_equal; lia).
      assert (Hln : ln (P * P) <= ln (B * (ratio * ratio))).
      { rewrite !ln_mult by nra. rewrite HlnP, <- Hq.
        assert (0 <= (q + 1 / 2 - IZR n) * ln B) by (apply Rmult_le_pos; lra).
        lra. }
      apply ln_le_inv in Hln; [|nra|apply Rmult_lt_0_compat; nra].
      replace (longest * longest)
        with (initial_delay pol * initial_delay pol * (P * P))
        by (unfold longest; fold B; fold P; ring).
      replace (B * (budget * budget))
        with (initial_delay pol * initial_delay pol * (B * (ratio * ratio)))
        by (rewrite Hbudget; ring).
      apply Rmult_le_compat_l; assumption.
Qed.






Lemma wrapper_bounded_witness :
  exists r s' w,
    wrapper scripted no_draws default_policy 11
            [Err timeout_error; Err pending_error; Ok 42%Z]
    = Some (r, s', w)
    /\ (1 <= calls w)%nat
    /\ (Z.of_nat (calls w) <= 10 + 1)%Z
    /\ calls w = S (length (sleeps w)).
Proof.
  apply (wrapper_bounded scripted no_draws default_policy
           [Err timeout_error; Err pending_error; Ok 42%Z] 10%Z 11).
  - exact default_max_retries.
  - simpl. lia.
Defined.

Lemma half_draws_range i : 0 <= half_draws i < 1.
Proof. unfold half_draws. lra. Qed.

Lemma jitter_max_retries :
  compute_max_retries (custom_policy 1 (PyFloat 0.3) true 2) = Ok 10%Z.
Proof. exact default_max_retries. Qed.

Lemma negative_delay_max_retries :
  compute_max_retries (custom_policy (-1) (PyFloat 0.3) false 2) = Ok 10%Z.
Proof.
  apply (value_error_falls_back _ 0.3); [reflexivity|simpl; lra|simpl; lra].
Qed.

Lemma sleep_growth_bounds_witness :
  exists r s' w,
    wrapper scripted half_draws (custom_policy 1 (PyFloat 0.3) true 2) 11
            [Err timeout_error; Err timeout_error; Ok 42%Z]
    = Some (r, s', w)
    /\ (forall i d, sleeps w !! i = Some d -> 0 < d)
    /\ (forall d, sleeps w !! 0%nat = Some d -> 2 * 1 <= d /\ d < 2 * 2 * 1)
    /\ (forall i d d',
          sleeps w !! i = Some d -> sleeps w !! S i = Some d' ->
          2 * d <= d' /\ d' < 2 * 2 * d).
Proof.
  destruct (retry_loop_ends scripted half_draws
              (custom_policy 1 (PyFloat 0.3) true 2) 11 10%Z 0%Z 1
              [Err timeout_error; Err timeout_error; Ok 42%Z] initial_world)
    as [[[r s'] w] Hrun]; [lia|simpl; lia|].
  assert (Hw : wrapper scripted half_draws (custom_policy 1 (PyFloat 0.3) true 2) 11
                 [Err timeout_error; Err timeout_error; Ok 42%Z]
               = Some (r, s', w)).
  { unfold wrapper. rewrite jitter_max_retries. exact Hrun. }
  exists r, s', w. split; [exact Hw|].
  apply (sleep_growth_bounds scripted half_draws
           (custom_policy 1 (PyFloat 0.3) true 2)
           [Err timeout_error; Err timeout_error; Ok 42%Z] 11 10%Z r s' w).
  - exact jitter_max_retries.
  - simpl. lra.
  - simpl. lia.
  - exact half_draws_range.
  - exact Hw.
Defined.

Lemma total_sleep_geometric_witness :
  exists r s' w,
    wrapper scripted no_draws default_policy 11
            [Err timeout_error; Err timeout_error; Ok 42%Z]
    = Some (r, s', w)
    /\ (2 - 1) * total_sleep (sleeps w) = 1 * 2 * (2 ^ length (sleeps w) - 1).
Proof.
  destruct (retry_loop_ends scripted no_draws default_policy 11 10%Z 0%Z 1
              [Err timeout_error; Err timeout_error; Ok 42%Z] initial_world)
    as [[[r s'] w] Hrun]; [lia|simpl; lia|].
  assert (Hw : wrapper scripted no_draws default_policy 11
                 [Err timeout_error; Err timeout_error; Ok 42%Z]
               = Some (r, s', w)).
  { unfold wrapper. rewrite default_max_retries. exact Hrun. }
  exists r, s', w. split; [exact Hw|].
  apply (total_sleep_geometric scripted no_draws default_policy
           [Err timeout_error; Err timeout_error; Ok 42%Z] 11 10%Z r s' w).
  - exact default_max_retries.
  - reflexivity.
  - exact Hw.
Defined.

Lemma longest_wait_near_budget_witness :
  0.3 * 3600 * (0.3 * 3600) <= 2 * (1 * 2 ^ 10 * (1 * 2 ^ 10))
  /\ (2 * (1 * 1) <= 0.3 * 3600 * (0.3 * 3600) ->
      1 * 2 ^ 10 * (1 * 2 ^ 10) <= 2 * (0.3 * 3600 * (0.3 * 3600))).
Proof.
  apply (longest_wait_near_budget default_policy 0.3 10%Z).
  - reflexivity.
  - simpl. lra.
  - lra.
  - simpl. lia.
  - exact default_max_retries.
Defined.


Lemma negative_delay_sleep_raises_witness :
  wrapper scripted no_draws (custom_policy (-1) (PyFloat 0.3) false 2) 1
          [Err timeout_error; Ok 42%Z]
  = Some (Err ValueError, [Ok 42%Z], {| calls := 1; sleeps := []; draws := 1 |}).
Proof.
  apply (negative_delay_sleep_raises scripted no_draws
           (custom_policy (-1) (PyFloat 0.3) false 2)
           [Err timeout_error; Ok 42%Z] timeout_error 10%Z 0).
  - exact negative_delay_max_retries.
  - simpl. lra.
  - simpl. lia.
  - exact no_draws_range.
  - reflexivity.
  - reflexivity.
Defined.

Lemma general_error_wrapped_witness :
  exists s' w,
    (forall fuel, (1 < fuel)%nat ->
       wrapper scripted no_draws default_policy fuel
               [Err pending_error; Err plain_openai_error; Ok 42%Z]
       = Some (Err (Exception
                      "General Missing credentials. error raised by OpenAI. Please refer to `https://platform.openai.com/docs/guides/error-codes` for more information."),
               s', w))
    /\ calls w = 2%nat
    /\ length (sleeps w) = 1%nat.
Proof.
  apply (general_error_wrapped scripted no_draws default_policy
           [Err pending_error; Err plain_openai_error; Ok 42%Z]
           1 plain_openai_error 10%Z).
  - exact default_max_retries.
  - simpl. lra.
  - simpl. lia.
  - exact no_draws_range.
  - intros i Hi. exists pending_error.
    destruct i as [|i]; [split; reflexivity|lia].
  - reflexivity.
  - reflexivity.
  - lia.
Defined.

Lemma other_error_propagates_witness :
  exists s' w,
    (forall fuel, (0 < fuel)%nat ->
       wrapper scripted no_draws default_policy fuel
               [Err key_error; Ok 42%Z]
       = Some (Err (Reraised key_error), s', w))
    /\ calls w = 1%nat
    /\ length (sleeps w) = 0%nat.
Proof.
  apply (other_error_propagates scripted no_draws default_policy
           [Err key_error; Ok 42%Z] 0 key_error 10%Z).
  - exact default_max_retries.
  - simpl. lra.
  - simpl. lia.
  - exact no_draws_range.
  - intros i Hi. lia.
  - reflexivity.
  - reflexivity.
  - lia.
Defined.

End BackoffMore.
